(** * chess-tracker backend: the query, statistics and export layer

    A shallow embedding of [backend/main.py].  The SQLite tables are lists of
    rows in insertion order, every endpoint is a function of the store (and
    returns the new store when it writes), and each SQL statement is
    written out as the list computation it denotes.

    Conventions of the model:
    - Python [str] and SQLite [TEXT] are byte strings ([string]); SQLite's
      default BINARY collation is [String.compare].
    - Python [int] and SQLite [INTEGER] are [Z]; values are taken inside
      SQLite's 64-bit range, so the driver's overflow error and the overflow
      of [SUM] do not arise.
    - Python [float] is IEEE 754 binary64; a finite double is kept as the
      rational number it is.
    - SQL [NULL] and Python [None] are [None]. *)

From Stdlib Require Import ZArith List String Ascii Bool Lia.
From Stdlib Require Import QArith Qround Qabs DecimalString.
From Stdlib Require Import Permutation Sorted.
Import ListNotations.
Local Open Scope Z_scope.

(** ** Proleptic Gregorian calendar

    SQLite's date functions work on the proleptic Gregorian calendar through a
    day number.  [days_from_civil] counts days from 1970-01-01 (day 0), and
    [civil_from_days] is its inverse. *)

Record civil : Set := Civil { year : Z; month : Z; day : Z }.

Definition days_from_civil (c : civil) : Z :=
  let y := if month c <=? 2 then year c - 1 else year c in
  let era := y / 400 in
  let yoe := y - era * 400 in
  let mp := if 2 <? month c then month c - 3 else month c + 9 in
  let doy := (153 * mp + 2) / 5 + day c - 1 in
  let doe := yoe * 365 + yoe / 4 - yoe / 100 + doy in
  era * 146097 + doe - 719468.

Definition civil_of_doe (era doe : Z) : civil :=
  let yoe := (doe - doe / 1460 + doe / 36524 - doe / 146096) / 365 in
  let doy := doe - (365 * yoe + yoe / 4 - yoe / 100) in
  let mp := (5 * doy + 2) / 153 in
  let d := doy - (153 * mp + 2) / 5 + 1 in
  let m := if mp <? 10 then mp + 3 else mp - 9 in
  Civil (yoe + era * 400 + (if m <=? 2 then 1 else 0)) m d.

Definition civil_from_days (z : Z) : civil :=
  let z' := z + 719468 in
  civil_of_doe (z' / 146097) (z' mod 146097).

Definition is_leap (y : Z) : bool :=
  ((y mod 4 =? 0) && negb (y mod 100 =? 0)) || (y mod 400 =? 0).

Definition days_in_month (y m : Z) : Z :=
  if m =? 2 then (if is_leap y then 29 else 28)
  else if (m =? 4) || (m =? 6) || (m =? 9) || (m =? 11) then 30
  else 31.

(** A valid calendar date, in the range of Python's [datetime.date]
    (years 0001 to 9999), which is what the import scripts write with
    [isoformat()]. *)
Definition valid_dateb (c : civil) : bool :=
  (1 <=? year c) && (year c <=? 9999) &&
  (1 <=? month c) && (month c <=? 12) &&
  (1 <=? day c) && (day c <=? days_in_month (year c) (month c)).

Definition valid_date (c : civil) : Prop := valid_dateb c = true.

(** Day of the week in SQLite's numbering: 0 = Sunday, 1 = Monday, ...,
    6 = Saturday.  Day 0 (1970-01-01) was a Thursday. *)
Definition weekday (z : Z) : Z := (z + 4) mod 7.

Definition Sunday : Z := 0.
Definition Monday : Z := 1.

(** Chronological order on civil dates, field by field. *)
Definition civil_compare (a b : civil) : comparison :=
  match year a ?= year b with
  | Eq => match month a ?= month b with
          | Eq => day a ?= day b
          | c => c
          end
  | c => c
  end.

(** ** SQLite time values: the date-only text form *)

Definition digit_char (d : Z) : ascii := ascii_of_N (Z.to_N (48 + d)).

Definition digit_of_char (c : ascii) : option Z :=
  let n := Z.of_N (N_of_ascii c) in
  if (48 <=? n) && (n <=? 57) then Some (n - 48) else None.

(** [get_digits n s] reads exactly [n] decimal digits from the front of [s]. *)
Fixpoint get_digits (n : nat) (s : string) (acc : Z) : option (Z * string) :=
  match n with
  | O => Some (acc, s)
  | S k =>
      match s with
      | String c r =>
          match digit_of_char c with
          | Some d => get_digits k r (10 * acc + d)
          | None => None
          end
      | EmptyString => None
      end
  end.

Definition expect_char (c : ascii) (s : string) : option string :=
  match s with
  | String c' r => if Ascii.eqb c c' then Some r else None
  | EmptyString => None
  end.

Definition dash : ascii := "-"%char.

(** The text form [YYYY-MM-DD] (an optional leading minus sign for years
    before 0000), month 01..12 and day 01..31 as SQLite's parser checks them.
    This is the form the application stores.  SQLite's other time-value
    forms (a time of day after the date, a Julian day number, ['now']) are
    outside the model and read as unparsable here, and for years before 0000
    SQLite's own day arithmetic leaves the proleptic calendar in some
    century years; the model agrees with SQLite 3.40 on every date of the
    years 0000 to 9999. *)
Definition parse_digits (neg : bool) (s0 : string) : option civil :=
  match get_digits 4 s0 0 with
  | Some (y, s1) =>
    match expect_char dash s1 with
    | Some s2 =>
      match get_digits 2 s2 0 with
      | Some (m, s3) =>
        match expect_char dash s3 with
        | Some s4 =>
          match get_digits 2 s4 0 with
          | Some (d, EmptyString) =>
              if (1 <=? m) && (m <=? 12) && (1 <=? d) && (d <=? 31)
              then Some (Civil (if neg then - y else y) m d)
              else None
          | _ => None
          end
        | None => None
        end
      | None => None
      end
    | None => None
    end
  | None => None
  end.

Definition parse_yyyy_mm_dd (s : string) : option civil :=
  match s with
  | String c r => if Ascii.eqb c dash then parse_digits true r
                  else parse_digits false s
  | EmptyString => None
  end.

Definition two_digits (n : Z) (rest : string) : string :=
  String (digit_char (n / 10 mod 10)) (String (digit_char (n mod 10)) rest).

Definition four_digits (n : Z) (rest : string) : string :=
  String (digit_char (n / 1000 mod 10))
    (String (digit_char (n / 100 mod 10)) (two_digits n rest)).

(** The text [date()] returns: [YYYY-MM-DD], with a minus sign in front for
    a year before 0000. *)
Definition format_date (c : civil) : string :=
  let body :=
    four_digits (Z.abs (year c))
      (String dash (two_digits (month c)
         (String dash (two_digits (day c) EmptyString)))) in
  if year c <? 0 then String dash body else body.

(** SQLite accepts a result only between Julian day 0 (-4713-11-24) and
    9999-12-31. *)
Definition valid_julian_day (z : Z) : bool :=
  (-2440587 <=? z) && (z <=? 2932896).

(** The modifier ['weekday 0']: move forward, if needed, to the next date
    whose weekday is 0 (Sunday). *)
Definition weekday_0 (z : Z) : Z := z + (7 - weekday z) mod 7.

(** The modifier ['-6 days']. *)
Definition minus_6_days (z : Z) : Z := z - 6.

(** The SQL expression [date(date, 'weekday 0', '-6 days')], which the three
    queries of [get_summary] use as [week_start]. *)
Definition week_start_days (z : Z) : Z := minus_6_days (weekday_0 z).

Definition week_start (date : option string) : option string :=
  match date with
  | None => None
  | Some s =>
      match parse_yyyy_mm_dd s with
      | None => None
      | Some c =>
          let z := week_start_days (days_from_civil c) in
          if valid_julian_day z then Some (format_date (civil_from_days z))
          else None
      end
  end.


(** ** Rows and the store *)

(** [ActivityBase] / [ActivityCreate]: the validated body of POST /activities.
    The class declares field types only, no constraint on any field. *)
Module ActivityCreate.
Record t : Set := Build
    { date : string;
      week : Z;
      category : string;
      minutes : Z;
      details : option string }.
End ActivityCreate.

(** [Activity]: a row of the table [activities]. *)
Module Activity.
Record t : Set := Build
    { id : Z;
      date : string;
      week : Z;
      category : string;
      minutes : Z;
      details : option string;
      created_at : string }.
End Activity.

(** [MistakeBase] / [MistakeCreate].  The field [fix] is spelled [fix_]
    here, [fix] being a keyword. *)
Module MistakeCreate.
Record t : Set := Build
    { date : string;
      game_type : option string;
      time_control : option string;
      opponent_name : option string;
      opponent_rating : option Z;
      result : option string;
      move_number : option Z;
      mistake_category : option string;
      cause : option string;
      fix_ : option string;
      training : option string;
      url : option string;
      annotations : option string }.
End MistakeCreate.

(** [Mistake]: a row of the table [mistakes]. *)
Module Mistake.
Record t : Set := Build
    { id : Z;
      date : string;
      game_type : option string;
      time_control : option string;
      opponent_name : option string;
      opponent_rating : option Z;
      result : option string;
      move_number : option Z;
      mistake_category : option string;
      cause : option string;
      fix_ : option string;
      training : option string;
      url : option string;
      annotations : option string;
      created_at : string }.
End Mistake.

(** The database file: both tables in rowid order, and for each the largest
    rowid handed out so far (the tables are declared AUTOINCREMENT). *)
Record Store : Set := mkStore
  { activities : list Activity.t;
    activities_seq : Z;
    mistakes : list Mistake.t;
    mistakes_seq : Z }.

Definition empty_store : Store := mkStore [] 0 [] 0.

(** What an endpoint hands back: a body, or the HTTP error it raised. *)
Inductive response (A : Type) : Type :=
| Ok (body : A)
| HTTPException (status_code : Z) (detail : string).
Arguments Ok {A} body.
Arguments HTTPException {A} status_code detail.

(** A cell of a result row or of a JSON object. *)
Inductive value : Set :=
| VNull
| VInt (n : Z)
| VText (s : string).

Definition value_of_text (o : option string) : value :=
  match o with Some s => VText s | None => VNull end.

Definition value_of_int (o : option Z) : value :=
  match o with Some n => VInt n | None => VNull end.

(** ** SQL building blocks *)

Section OrderBy.
Context {A : Type} (leb : A -> A -> bool).

Fixpoint insert_sorted (x : A) (l : list A) : list A :=
    match l with
    | [] => [x]
    | y :: t => if leb x y then x :: l else y :: insert_sorted x t
    end.

  (** ORDER BY, as a stable sort: rows that tie keep their table order. *)
Definition order_by (l : list A) : list A := fold_right insert_sorted [] l.
End OrderBy.

(** [LIMIT ? OFFSET ?]: a negative OFFSET counts as 0, a negative LIMIT as
    no limit. *)
Definition limit_offset {A : Type} (limit offset : Z) (l : list A) : list A :=
  let rest := skipn (Z.to_nat offset) l in
  if limit <? 0 then rest else firstn (Z.to_nat limit) rest.

Definition sum_Z (l : list Z) : Z := fold_right Z.add 0 l.

(** SQL [SUM] without GROUP BY: NULL over no rows. *)
Definition sql_sum (l : list Z) : option Z :=
  match l with [] => None | _ => Some (sum_Z l) end.

(** Comparison of two TEXT-or-NULL values when sorting: NULL sorts first. *)
Definition text_null_compare (a b : option string) : comparison :=
  match a, b with
  | None, None => Eq
  | None, Some _ => Lt
  | Some _, None => Gt
  | Some x, Some y => String.compare x y
  end.

Definition text_null_geb (a b : option string) : bool :=
  match text_null_compare a b with Lt => false | _ => true end.

(** SQL [MAX] over a TEXT column: NULL over no rows. *)
Definition sql_max_text (l : list string) : option string :=
  fold_right (fun s acc =>
                match acc with
                | None => Some s
                | Some m => if String.ltb m s then Some s else Some m
                end) None l.

Definition option_string_dec (a b : option string) : {a = b} + {a <> b}.
Proof. decide equality. apply string_dec. Defined.

Definition pair_string_dec (a b : string * string) : {a = b} + {a <> b}.
Proof. decide equality; apply string_dec. Defined.

(** SQL [x IN (?, ..., ?)]: never true for a NULL [x], and a NULL parameter
    matches nothing. *)
Definition sql_in (x : option string) (params : list (option string)) : bool :=
  match x with
  | None => false
  | Some s => existsb (fun p => match p with
                                | Some s' => String.eqb s s'
                                | None => false
                                end) params
  end.

(** Python truthiness of an optional string: [None] and the empty string are
    false. *)
Definition truthy (o : option string) : bool :=
  match o with
  | None => false
  | Some EmptyString => false
  | Some (String _ _) => true
  end.

(** ** Python dictionaries, in insertion order *)

Section Dict.
Context {K V : Type} (eqb : K -> K -> bool).

Fixpoint dict_get (k : K) (d : list (K * V)) : option V :=
    match d with
    | [] => None
    | (k', v) :: t => if eqb k k' then Some v else dict_get k t
    end.

  (** [d[k] = v]: a present key keeps its place, a new key goes last. *)
Fixpoint dict_set (k : K) (v : V) (d : list (K * V)) : list (K * V) :=
    match d with
    | [] => [(k, v)]
    | (k', v') :: t =>
        if eqb k k' then (k, v) :: t else (k', v') :: dict_set k v t
    end.

Definition dict_values (d : list (K * V)) : list V := map snd d.
End Dict.

Definition option_string_eqb (a b : option string) : bool :=
  if option_string_dec a b then true else false.

(** A JSON object with text keys. *)
Definition json_object : Set := list (string * value).

(** ** The mistakes endpoints *)

Module MistakesPage.
Record t : Set := Build
  { mistakes : list Mistake.t;
    total_count : Z;
    limit : Z;
    offset : Z }.
End MistakesPage.

(** [ORDER BY date DESC, id DESC]. *)
Definition mistake_newest_first (a b : Mistake.t) : bool :=
  match String.compare (Mistake.date b) (Mistake.date a) with
  | Lt => true
  | Gt => false
  | Eq => Mistake.id b <=? Mistake.id a
  end.

(** GET /mistakes *)
Definition get_mistakes (limit offset : Z) (db : Store) : MistakesPage.t :=
  let total_count := Z.of_nat (List.length (mistakes db)) in
  let rows :=
    limit_offset limit offset (order_by mistake_newest_first (mistakes db)) in
  MistakesPage.Build rows total_count limit offset.

Definition max_id {R : Type} (id : R -> Z) (seq : Z) (rows : list R) : Z :=
  fold_right Z.max seq (map id rows).

(** POST /mistakes; [now] is the store's CURRENT_TIMESTAMP. *)
Definition create_mistake (now : string) (mistake : MistakeCreate.t)
  (db : Store) : response Mistake.t * Store :=
  let mistake_id := max_id Mistake.id (mistakes_seq db) (mistakes db) + 1 in
  let row :=
    Mistake.Build mistake_id
      (MistakeCreate.date mistake) (MistakeCreate.game_type mistake)
      (MistakeCreate.time_control mistake) (MistakeCreate.opponent_name mistake)
      (MistakeCreate.opponent_rating mistake) (MistakeCreate.result mistake)
      (MistakeCreate.move_number mistake)
      (MistakeCreate.mistake_category mistake) (MistakeCreate.cause mistake)
      (MistakeCreate.fix_ mistake) (MistakeCreate.training mistake)
      (MistakeCreate.url mistake) (MistakeCreate.annotations mistake) now in
  let db' :=
    mkStore (activities db) (activities_seq db)
            (mistakes db ++ [row]) mistake_id in
  match find (fun r => Mistake.id r =? mistake_id) (mistakes db') with
  | Some r => (Ok r, db')
  | None => (HTTPException 500 "Internal Server Error", db')
  end.

(** DELETE /mistakes/{mistake_id} *)
Definition delete_mistake (mistake_id : Z) (db : Store)
  : response string * Store :=
  let remaining :=
    filter (fun r => negb (Mistake.id r =? mistake_id)) (mistakes db) in
  let rowcount := (List.length (mistakes db) - List.length remaining)%nat in
  if Nat.eqb rowcount 0
  then (HTTPException 404 "Mistake not found", db)
  else (Ok "Mistake deleted"%string,
        mkStore (activities db) (activities_seq db)
                remaining (mistakes_seq db)).

(** [SELECT col, COUNT( * ) FROM mistakes WHERE col IS NOT NULL GROUP BY col]:
    one output row per distinct non-NULL value, in ascending order of the
    value. *)
Definition count_by (col : Mistake.t -> option string) (rows : list Mistake.t)
  : list (string * Z) :=
  let present :=
    flat_map (fun r => match col r with Some v => [v] | None => [] end) rows in
  map (fun v => (v, Z.of_nat (List.length (filter (String.eqb v) present))))
      (order_by String.leb (nodup string_dec present)).

Module MistakesStats.
Record t : Set := Build
  { mistake_distribution : list (string * Z);
    result_distribution : list (string * Z) }.
End MistakesStats.

(** GET /mistakes/stats *)
Definition get_mistakes_stats (db : Store) : MistakesStats.t :=
  MistakesStats.Build
    (count_by Mistake.mistake_category (mistakes db))
    (count_by Mistake.result (mistakes db)).

(** ** The activities endpoints *)

Module ActivitiesPage.
Record t : Set := Build
  { activities : list Activity.t;
    total_count : Z;
    limit : Z;
    offset : Z }.
End ActivitiesPage.

Definition activity_newest_first (a b : Activity.t) : bool :=
  match String.compare (Activity.date b) (Activity.date a) with
  | Lt => true
  | Gt => false
  | Eq => Activity.id b <=? Activity.id a
  end.

(** One optional predicate of the WHERE clause: [if param: query += ...]. *)
Definition clause (param : option string)
  (test : string -> Activity.t -> bool) : list (Activity.t -> bool) :=
  match param with
  | Some p => if truthy param then [test p] else []
  | None => []
  end.

(** The query text [WHERE 1=1 AND ...] that [get_activities] builds. *)
Definition where_clauses (category start_date end_date : option string)
  : list (Activity.t -> bool) :=
  clause category (fun p a => String.eqb (Activity.category a) p) ++
  clause start_date (fun p a => String.leb p (Activity.date a)) ++
  clause end_date (fun p a => String.leb (Activity.date a) p).

Definition sql_where {R : Type} (clauses : list (R -> bool)) (rows : list R)
  : list R :=
  filter (fun r => forallb (fun p => p r) clauses) rows.

(** GET /activities *)
Definition get_activities (limit offset : Z)
  (category start_date end_date : option string) (db : Store)
  : ActivitiesPage.t :=
  let query := where_clauses category start_date end_date in
  let total_count := Z.of_nat (List.length (sql_where query (activities db))) in
  let rows :=
    limit_offset limit offset
      (order_by activity_newest_first (sql_where query (activities db))) in
  ActivitiesPage.Build rows total_count limit offset.

(** POST /activities *)
Definition create_activity (now : string) (activity : ActivityCreate.t)
  (db : Store) : response Activity.t * Store :=
  let activity_id :=
    max_id Activity.id (activities_seq db) (activities db) + 1 in
  let row :=
    Activity.Build activity_id
      (ActivityCreate.date activity) (ActivityCreate.week activity)
      (ActivityCreate.category activity) (ActivityCreate.minutes activity)
      (ActivityCreate.details activity) now in
  let db' :=
    mkStore (activities db ++ [row]) activity_id
            (mistakes db) (mistakes_seq db) in
  match find (fun r => Activity.id r =? activity_id) (activities db') with
  | Some r => (Ok r, db')
  | None => (HTTPException 500 "Internal Server Error", db')
  end.

(** DELETE /activities/{activity_id} *)
Definition delete_activity (activity_id : Z) (db : Store)
  : response string * Store :=
  let remaining :=
    filter (fun r => negb (Activity.id r =? activity_id)) (activities db) in
  let rowcount := (List.length (activities db) - List.length remaining)%nat in
  if Nat.eqb rowcount 0
  then (HTTPException 404 "Activity not found", db)
  else (Ok "Activity deleted"%string,
        mkStore remaining (activities_seq db)
                (mistakes db) (mistakes_seq db)).

(** ** GET /stats/summary *)

(** The column [date(date, 'weekday 0', '-6 days') as week_start]. *)
Definition activity_week_start (a : Activity.t) : option string :=
  week_start (Some (Activity.date a)).

(** [SELECT category, SUM(minutes) FROM activities GROUP BY category].
    The groups come out in ascending order of the key, as SQLite's sorter
    yields them; SQL itself promises no order. *)
Definition category_totals (rows : list Activity.t) : list (string * Z) :=
  map (fun c =>
         (c, sum_Z (map Activity.minutes
                      (filter (fun a => String.eqb (Activity.category a) c)
                              rows))))
      (order_by String.leb (nodup string_dec (map Activity.category rows))).

(** [SELECT DISTINCT week_start FROM activities ORDER BY week_start DESC
    LIMIT 12] *)
Definition recent_weeks (rows : list Activity.t) : list (option string) :=
  firstn 12
    (order_by text_null_geb
       (nodup option_string_dec (map activity_week_start rows))).

Definition week_category (a : Activity.t) : option string * string :=
  (activity_week_start a, Activity.category a).

Definition week_category_dec (a b : option string * string)
  : {a = b} + {a <> b}.
Proof. decide equality; [apply string_dec | apply option_string_dec]. Defined.

Definition week_category_eqb (a b : option string * string) : bool :=
  if week_category_dec a b then true else false.

Definition week_category_leb (a b : option string * string) : bool :=
  match text_null_compare (fst a) (fst b) with
  | Lt => true
  | Gt => false
  | Eq => String.leb (snd a) (snd b)
  end.

(** [SELECT week_start, category, SUM(minutes) FROM activities
    WHERE week_start IN (...) GROUP BY week_start, category] *)
Definition weekly_totals (weeks : list (option string))
  (rows : list Activity.t) : list (option string * string * Z) :=
  let kept := filter (fun a => sql_in (activity_week_start a) weeks) rows in
  map (fun k =>
         (k, sum_Z (map Activity.minutes
                      (filter (fun a => week_category_eqb (week_category a) k)
                              kept))))
      (order_by week_category_leb
         (nodup week_category_dec (map week_category kept))).

(** [data_map = {week: {'week_start': week} for week in weeks}] *)
Definition data_map_init (weeks : list (option string))
  : list (option string * json_object) :=
  fold_left
    (fun dm week =>
       dict_set option_string_eqb week
                [("week_start"%string, value_of_text week)] dm)
    weeks [].

(** The body of [for row in rows: ...]. *)
Definition data_map_step (dm : list (option string * json_object))
  (row : option string * string * Z) : list (option string * json_object) :=
  let '(week, cat, mins) := row in
  match dict_get option_string_eqb week dm with
  | Some obj =>
      dict_set option_string_eqb week
               (dict_set String.eqb cat (VInt mins) obj) dm
  | None => dm
  end.

Definition weekly_progress_of (rows : list Activity.t) : list json_object :=
  let weeks := rev (recent_weeks rows) in
  match weeks with
  | [] => []
  | _ =>
      dict_values
        (fold_left data_map_step (weekly_totals weeks rows)
                   (data_map_init weeks))
  end.

(** SQL [=] on two TEXT-or-NULL values, as a WHERE condition. *)
Definition sql_eq (a b : option string) : bool :=
  match a, b with
  | Some x, Some y => String.eqb x y
  | _, _ => false
  end.

(** Python's [float] is IEEE 754 binary64.  A finite double is a rational
    number, and the model keeps that rational ([Q], in lowest terms): the
    JSON response prints its shortest decimal form. *)

(** Round to the nearest integer, a tie going to the even one. *)
Definition round_half_even (x : Q) : Z :=
  let f := Qfloor x in
  match Qcompare (x - inject_Z f) (1 # 2) with
  | Lt => f
  | Gt => f + 1
  | Eq => if Z.even f then f else f + 1
  end.

Definition pow2 (e : Z) : Q :=
  if 0 <=? e then inject_Z (2 ^ e) else 1 # Z.to_pos (2 ^ (- e)).

(** For [q > 0], the exponent [e] with [2^e <= q < 2^(e+1)]. *)
Definition floor_log2 (q : Q) : Z :=
  let e0 := Z.log2 (Qnum q) - Z.log2 (Z.pos (Qden q)) in
  if Qle_bool (pow2 e0) q then e0 else e0 - 1.

(** The double nearest to [q] (round to nearest, ties to even): 53
    significant bits, the exponent not below -1022 (subnormals).  Overflow
    to infinity (from 2^1024 on) is outside the model; a 64-bit integer
    over 60 is far below it. *)
Definition binary64 (q : Q) : Q :=
  if Qeq_bool q 0 then 0%Q
  else
    let e := Z.max (floor_log2 (Qabs q)) (-1022) in
    let ulp := pow2 (e - 52) in
    Qred (inject_Z (round_half_even (q / ulp)) * ulp).

(** Python's [a / b] on two [int]s, for [b <> 0]: the double nearest to the
    exact quotient. *)
Definition truediv (a b : Z) : Q := binary64 (inject_Z a / inject_Z b).

(** Python's [round(x, 2)] on a [float]: the exact value of [x] is rounded
    to two decimals, a tie going to the even hundredth, and the result is
    the double nearest to that decimal. *)
Definition round_2 (x : Q) : Q :=
  binary64 (inject_Z (round_half_even (x * inject_Z 100)) / inject_Z 100).

Module Summary.
Record t : Set := Build
  { category_distribution : list (string * Z);
    weekly_progress : list json_object;
    current_week_total_hours : Q;
    current_week_start : option string }.
End Summary.

Definition current_week_start_of (rows : list Activity.t) : option string :=
  week_start (sql_max_text (map Activity.date rows)).

Definition current_week_minutes_of (rows : list Activity.t) : Z :=
  let current_week_start := current_week_start_of rows in
  if truthy current_week_start then
    match sql_sum (map Activity.minutes
                     (filter (fun a => sql_eq (activity_week_start a)
                                              current_week_start) rows)) with
    | Some n => if n =? 0 then 0 else n
    | None => 0
    end
  else 0.

Definition get_summary (db : Store) : Summary.t :=
  let rows := activities db in
  Summary.Build
    (category_totals rows)
    (weekly_progress_of rows)
    (round_2 (truediv (current_week_minutes_of rows) 60))
    (current_week_start_of rows).

(** ** CSV export *)

Definition quote_char : ascii := "034"%char.
Definition comma : ascii := ","%char.
Definition CR : ascii := "013"%char.
Definition LF : ascii := "010"%char.
Definition lineterminator : string := String CR (String LF EmptyString).

(** [str(n)] *)
Definition str_of_int (n : Z) : string := NilZero.string_of_int (Z.to_int n).

Definition cell_text (v : value) : string :=
  match v with
  | VNull => EmptyString
  | VInt n => str_of_int n
  | VText s => s
  end.

Fixpoint needs_quotes (s : string) : bool :=
  match s with
  | EmptyString => false
  | String c r =>
      Ascii.eqb c comma || Ascii.eqb c quote_char || Ascii.eqb c CR
      || Ascii.eqb c LF || needs_quotes r
  end.

Fixpoint double_quotes (s : string) : string :=
  match s with
  | EmptyString => EmptyString
  | String c r =>
      if Ascii.eqb c quote_char
      then String c (String c (double_quotes r))
      else String c (double_quotes r)
  end.

Definition csv_field (v : value) : string :=
  let s := cell_text v in
  if needs_quotes s
  then String quote_char
         (double_quotes s ++ String quote_char EmptyString)%string
  else s.

Fixpoint join_fields (fields : list string) : string :=
  match fields with
  | [] => EmptyString
  | [f] => f
  | f :: rest => (f ++ String comma (join_fields rest))%string
  end.

(** [csv.writer(output).writerow(fields)] in the default dialect: minimal
    quoting, and a lone empty field is written as two quote marks. *)
Definition writerow (fields : list value) : string :=
  match map csv_field fields with
  | [EmptyString] =>
      String quote_char (String quote_char lineterminator)
  | cells => (join_fields cells ++ lineterminator)%string
  end.

Module Csv.
Record t : Set := Build
  { body : string;
    content_disposition : option string }.
End Csv.

Definition mistake_columns : list string :=
  ["id"; "date"; "game_type"; "time_control"; "opponent_name";
   "opponent_rating"; "result"; "move_number"; "mistake_category"; "cause";
   "fix"; "training"; "url"; "annotations"; "created_at"]%string.

Definition mistake_cells (r : Mistake.t) : list value :=
  [VInt (Mistake.id r); VText (Mistake.date r);
   value_of_text (Mistake.game_type r); value_of_text (Mistake.time_control r);
   value_of_text (Mistake.opponent_name r);
   value_of_int (Mistake.opponent_rating r); value_of_text (Mistake.result r);
   value_of_int (Mistake.move_number r);
   value_of_text (Mistake.mistake_category r); value_of_text (Mistake.cause r);
   value_of_text (Mistake.fix_ r); value_of_text (Mistake.training r);
   value_of_text (Mistake.url r); value_of_text (Mistake.annotations r);
   VText (Mistake.created_at r)].

(** GET /export/mistakes; [today] is [datetime.now().strftime('%Y%m%d')].
    [ORDER BY date DESC] alone leaves the order of same-date rows to the
    store; the model keeps them in table order. *)
Definition export_mistakes (today : string) (db : Store) : Csv.t :=
  let rows :=
    order_by (fun a b => String.leb (Mistake.date b) (Mistake.date a))
             (mistakes db) in
  match rows with
  | [] => Csv.Build EmptyString None
  | _ =>
      Csv.Build
        (writerow (map VText mistake_columns)
         ++ String.concat EmptyString
              (map (fun r => writerow (mistake_cells r)) rows))%string
        (Some ("attachment; filename=chess_mistakes_" ++ today
               ++ ".csv")%string)
  end.

Definition activity_header : list string :=
  ["Date"; "Week"; "Category"; "Minutes"; "Details"]%string.

(** [SELECT date, week, category, minutes, details] *)
Definition activity_cells (a : Activity.t) : list value :=
  [VText (Activity.date a); VInt (Activity.week a);
   VText (Activity.category a); VInt (Activity.minutes a);
   value_of_text (Activity.details a)].

(** GET /export *)
Definition export_activities (today : string) (db : Store) : Csv.t :=
  let rows :=
    order_by (fun a b => String.leb (Activity.date b) (Activity.date a))
             (activities db) in
  Csv.Build
    (writerow (map VText activity_header)
     ++ String.concat EmptyString
          (map (fun a => writerow (activity_cells a)) rows))%string
    (Some ("attachment; filename=chess_activities_" ++ today
           ++ ".csv")%string).

(** * The vocabulary of the claims

    Definitions used to state the properties below: orders on dates, the
    readings of the spec's sentences, and the sample data of its
    scenarios. *)

(** ** Dates *)

(** One number per date, in chronological order for two-digit months and
    days. *)
Definition civil_key (c : civil) : Z :=
  year c * 10000 + month c * 100 + day c.

Definition valid_month_day (c : civil) : Prop :=
  1 <= month c <= 12 /\ 1 <= day c <= days_in_month (year c) (month c).

(** What [format_date] can print and [parse_yyyy_mm_dd] read back. *)
Definition printable (c : civil) : Prop :=
  -9999 <= year c <= 9999 /\ 1 <= month c <= 12 /\ 1 <= day c <= 31.

(** The day number of a date text, when it reads as a date. *)
Definition date_days (s : string) : option Z :=
  option_map days_from_civil (parse_yyyy_mm_dd s).

Definition text_key (s : string) : Z :=
  match date_days s with
  | Some z => z
  | None => 0
  end.

(** A text that reads as a valid calendar date. *)
Definition is_valid_date_text (s : string) : bool :=
  match parse_yyyy_mm_dd s with
  | Some c => valid_dateb c
  | None => false
  end.

Definition valid_activity_date (a : Activity.t) : bool :=
  is_valid_date_text (Activity.date a).

(** [s] is not later than [s'], in time. *)
Definition date_not_after (s s' : string) : Prop :=
  match date_days s, date_days s' with
  | Some z, Some z' => z <= z'
  | _, _ => False
  end.

(** Week [w] is earlier than week [w'], in time. *)
Definition older (w w' : string) : Prop :=
  match date_days w, date_days w' with
  | Some z, Some z' => z < z'
  | _, _ => False
  end.

(** The buckets of valid dates: texts of days between 0001-01-01 and
    9999-12-31. *)
Definition is_week (o : option string) : Prop :=
  exists z, -719162 <= z <= 2932896 /\
            o = Some (format_date (civil_from_days z)).

Definition week_key (o : option string) : Z :=
  match o with
  | Some w => text_key w
  | None => 0
  end.

(** ** Listing, creating, deleting *)

(** A row matches the filter when it passes every parameter that was given;
    a parameter that is absent or empty is no constraint. *)
Definition matches (category start_date end_date : option string)
  (a : Activity.t) : bool :=
  match category with
  | Some (String _ _ as c) => String.eqb (Activity.category a) c
  | _ => true
  end &&
  match start_date with
  | Some (String _ _ as d) => String.leb d (Activity.date a)
  | _ => true
  end &&
  match end_date with
  | Some (String _ _ as d) => String.leb (Activity.date a) d
  | _ => true
  end.

(** No row of the table carries the id [x]. *)
Definition absent {R : Type} (id : R -> Z) (x : Z) (rows : list R) : bool :=
  forallb (fun r => negb (id r =? x)) rows.

(** The integers SQLite stores and the driver binds: 64-bit signed.  On any
    other [int] the driver raises [OverflowError] before the statement runs,
    and a table whose largest id is the last 64-bit integer takes no more
    rows. *)
Definition fits_int64 (n : Z) : bool := (- 2 ^ 63 <=? n) && (n <? 2 ^ 63).

Definition fits_int64_or_null (o : option Z) : bool :=
  match o with
  | Some n => fits_int64 n
  | None => true
  end.

(** The invariant of the data model: [minutes >= 0] and a date that is a
    valid calendar date. *)
Definition activity_invariant (a : ActivityCreate.t) : bool :=
  (0 <=? ActivityCreate.minutes a) &&
  is_valid_date_text (ActivityCreate.date a).

(** ** Mistake statistics and exports *)

(** The non-NULL values of a column, row by row. *)
Definition present_values (col : Mistake.t -> option string)
  (rows : list Mistake.t) : list string :=
  flat_map (fun r => match col r with Some v => [v] | None => [] end) rows.

Definition activity_header_line : string :=
  ("Date,Week,Category,Minutes,Details" ++ lineterminator)%string.

Definition mistake_header_line : string :=
  ("id,date,game_type,time_control,opponent_name,opponent_rating,result,"
   ++ "move_number,mistake_category,cause,fix,training,url,annotations,"
   ++ "created_at" ++ lineterminator)%string.

(** ** The weekly pivot *)

(** The parts of a row of the grouped query, and the assignment
    [data_map[week][cat] = mins] on the object of its week. *)
Definition row_week (r : option string * string * Z) : option string :=
  fst (fst r).

Definition row_category (r : option string * string * Z) : string :=
  snd (fst r).

Definition row_minutes (r : option string * string * Z) : Z := snd r.

Definition object_step (obj : json_object) (r : option string * string * Z)
  : json_object :=
  dict_set String.eqb (row_category r) (VInt (row_minutes r)) obj.

Definition week_object (w : option string) : json_object :=
  [("week_start"%string, value_of_text w)].

(** The activities of week [w] and category [c], as the claim counts them. *)
Definition in_week_category (w c : string) (a : Activity.t) : bool :=
  sql_eq (activity_week_start a) (Some w) &&
  String.eqb (Activity.category a) c.

Definition week_minutes (rows : list Activity.t) (w c : string) : list Z :=
  map Activity.minutes (filter (in_week_category w c) rows).

(** The buckets present in the table. *)
Definition week_values (rows : list Activity.t) : list string :=
  flat_map (fun a => match activity_week_start a with
                     | Some w => [w]
                     | None => []
                     end) rows.

(** What C2 says of the kept weeks: they are distinct buckets of the table,
    at most 12, all of them when there are fewer than 12, every kept one
    later than every bucket left out, and they stand in ascending order of
    time. *)
Definition kept_weeks (rows : list Activity.t) (kept : list string) : Prop :=
  NoDup kept /\
  (forall w, In w kept -> In w (week_values rows)) /\
  (List.length kept <= 12)%nat /\
  ((List.length kept < 12)%nat ->
   forall w, In w (week_values rows) -> In w kept) /\
  (forall w w', In w kept -> In w' (week_values rows) -> ~ In w' kept ->
                older w' w) /\
  StronglySorted older kept.

(** What C2 says of the row of week [w]: it maps [week_start] to the week,
    and any other key to the sum of the week's minutes of that category
    when the week has an activity of the category, and to nothing
    otherwise. *)
Definition pivot_row (rows : list Activity.t) (w : string)
  (row : json_object) : Prop :=
  dict_get String.eqb "week_start"%string row = Some (VText w) /\
  forall c, c <> "week_start"%string ->
            dict_get String.eqb c row =
            match week_minutes rows w c with
            | [] => None
            | mins => Some (VInt (sum_Z mins))
            end.

(** C2 as the spec states it: one row per kept week, in that order. *)
Definition weekly_progress_claim (rows : list Activity.t)
  (progress : list json_object) : Prop :=
  exists kept, kept_weeks rows kept /\ Forall2 (pivot_row rows) kept progress.

Definition no_week_start_category (a : Activity.t) : bool :=
  negb (String.eqb (Activity.category a) "week_start").

(** The minutes of the activities whose bucket is [week]. *)
Definition minutes_of_week (week : option string) (rows : list Activity.t)
  : Z :=
  sum_Z (map Activity.minutes
           (filter (fun a => option_string_eqb (activity_week_start a) week)
                   rows)).

(** [k / 100] is [x] rounded to two decimals: no hundredth is nearer to
    [x], and where two are equally near [k] is the even one. *)
Definition rounds_to_hundredth (x : Q) (k : Z) : Prop :=
  (Qabs (inject_Z k - x * inject_Z 100) <= 1 # 2)%Q /\
  ((Qabs (inject_Z k - x * inject_Z 100) == 1 # 2)%Q -> Z.even k = true).

(** ** Sample data *)

(** The two activities of the spec's scenario, and one mistake. *)
Definition tactics_monday : Activity.t :=
  Activity.Build 1 "2026-01-05" 2 "Tactics" 30 None "2026-01-05 18:00:00".

Definition tactics_saturday : Activity.t :=
  Activity.Build 2 "2026-01-10" 2 "Tactics" 45 None "2026-01-10 18:00:00".

Definition blunder_mistake : Mistake.t :=
  Mistake.Build 1 "2026-01-06" (Some "blitz"%string) None None (Some 1500)
                (Some "loss"%string) (Some 23) (Some "Tactics"%string)
                None None None None None "2026-01-06 20:00:00".

(** A mistake with neither category nor result. *)
Definition null_mistake : Mistake.t :=
  Mistake.Build 2 "2026-01-07" (Some "rapid"%string) None None None None None
                None None None None None None "2026-01-07 20:00:00".

Definition scenario_store : Store :=
  mkStore [tactics_monday; tactics_saturday] 2 [blunder_mistake] 1.

(** A body that breaks both halves of the invariant. *)
Definition bad_activity : ActivityCreate.t :=
  ActivityCreate.Build "2026-02-30" 9 "Tactics" (-5) None.

(** The body of a POST /mistakes request, most optional fields left out. *)
Definition blunder_body : MistakeCreate.t :=
  MistakeCreate.Build "2026-01-08" (Some "blitz"%string) None None (Some 1480)
                      (Some "loss"%string) (Some 31) (Some "Tactics"%string)
                      None None None None None.

(** A store whose one activity has the category [week_start], and a store
    whose one activity has a date text that is no date. *)
Definition week_start_category_store : Store :=
  mkStore [Activity.Build 1 "2025-01-10" 2 "week_start" 3 None
                          "2025-01-10 18:00:00"] 1 [] 0.

Definition unreadable_date_store : Store :=
  mkStore [Activity.Build 1 "n/a" 2 "Tactics" 20 None
                          "2025-01-10 18:00:00"] 1 [] 0.

(** ** Ids, listings and week numbers *)

Fixpoint distinct_ids (ids : list Z) : bool :=
  match ids with
  | [] => true
  | x :: t => negb (existsb (Z.eqb x) t) && distinct_ids t
  end.

(** What the PRIMARY KEY AUTOINCREMENT declaration keeps of a table: no id
    twice, and no id above the recorded sequence value. *)
Definition ids_ok {R : Type} (id : R -> Z) (seq : Z) (rows : list R) : bool :=
  distinct_ids (map id rows) && forallb (fun r => id r <=? seq) rows.

Definition store_ok (db : Store) : bool :=
  ids_ok Activity.id (activities_seq db) (activities db) &&
  ids_ok Mistake.id (mistakes_seq db) (mistakes db).

(** [a] may stand before [b] in a listing: a later date, or the same date
    and an id that is not smaller. *)
Definition activity_listed_before (a b : Activity.t) : Prop :=
  String.ltb (Activity.date b) (Activity.date a) = true \/
  (Activity.date a = Activity.date b /\ Activity.id b <= Activity.id a).

Definition mistake_listed_before (a b : Mistake.t) : Prop :=
  String.ltb (Mistake.date b) (Mistake.date a) = true \/
  (Mistake.date a = Mistake.date b /\ Mistake.id b <= Mistake.id a).

Definition is_null {A : Type} (o : option A) : bool :=
  match o with
  | None => true
  | Some _ => false
  end.








(** The number of the Monday-to-Sunday week a day lies in. *)
Definition week_number (z : Z) : Z := (z + 3) / 7.

(** The five columns GET /export selects from a row. *)
Definition export_view (a : Activity.t)
  : string * Z * string * Z * option string :=
  (Activity.date a, Activity.week a, Activity.category a,
   Activity.minutes a, Activity.details a).

(** * Properties *)

(** ** Proof automation for the calendar *)

Ltac split_ifs :=
  repeat match goal with
  | |- context [if ?b then _ else _] =>
      let E := fresh "E" in destruct b eqn:E
  | H : context [if ?b then _ else _] |- _ =>
      let E := fresh "E" in destruct b eqn:E
  end.

Ltac boolZ :=
  repeat match goal with
  | H : (_ && _) = true |- _ => apply andb_prop in H; destruct H
  | H : (_ || _) = false |- _ => apply orb_false_elim in H; destruct H
  | H : (_ || _) = true |- _ => apply orb_prop in H
  | H : (_ <=? _) = true |- _ => apply Z.leb_le in H
  | H : (_ <=? _) = false |- _ => apply Z.leb_gt in H
  | H : (_ <? _) = true |- _ => apply Z.ltb_lt in H
  | H : (_ <? _) = false |- _ => apply Z.ltb_ge in H
  | H : (_ =? _) = true |- _ => apply Z.eqb_eq in H
  | H : (_ =? _) = false |- _ => apply Z.eqb_neq in H
  end.

Ltac div_lia := Z.div_mod_to_equations; lia.

(** ** Calendar lemmas *)

Lemma is_leap_spec (y : Z) :
  is_leap y = true <->
  (y mod 4 = 0 /\ y mod 100 <> 0) \/ y mod 400 = 0.
Proof.
  unfold is_leap.
  rewrite orb_true_iff, andb_true_iff, negb_true_iff, !Z.eqb_eq, Z.eqb_neq.
  tauto.
Qed.

Lemma days_from_civil_of_doe (era doe : Z) :
  0 <= doe <= 146096 ->
  days_from_civil (civil_of_doe era doe) = era * 146097 + doe - 719468.
Proof.
  intros H. unfold days_from_civil, civil_of_doe. cbn [year month day].
  split_ifs; boolZ; div_lia.
Qed.

Lemma civil_of_doe_valid (era doe : Z) :
  0 <= doe <= 146096 -> valid_month_day (civil_of_doe era doe).
Proof.
  intros H. unfold valid_month_day, civil_of_doe, days_in_month.
  cbn [year month day].
  set (yoe := (doe - doe / 1460 + doe / 36524 - doe / 146096) / 365).
  set (doy := doe - (365 * yoe + yoe / 4 - yoe / 100)).
  set (mp := (5 * doy + 2) / 153).
  assert (Hy : 0 <= yoe <= 399 /\ 0 <= doy <= 365 /\
               (doy = 365 ->
                (yoe + 1) mod 4 = 0 /\
                ((yoe + 1) mod 100 <> 0 \/ yoe = 399))).
  { subst doy yoe. div_lia. }
  destruct Hy as (Hy & Hd & Hl).
  assert (Hmp : 0 <= mp <= 11) by (subst mp; div_lia).
  match goal with |- context [is_leap ?y] => set (yr := y) end.
  destruct (is_leap yr) eqn:EL.
  - subst yr. split_ifs; boolZ; subst mp; div_lia.
  - assert (HL : ~ ((yr mod 4 = 0 /\ yr mod 100 <> 0) \/ yr mod 400 = 0)).
    { rewrite <- is_leap_spec. congruence. }
    clear EL. subst yr. split_ifs; boolZ; subst mp; div_lia.
Qed.

(** Day number to date and back. *)
Lemma days_from_civil_from_days (z : Z) :
  days_from_civil (civil_from_days z) = z.
Proof.
  unfold civil_from_days.
  rewrite days_from_civil_of_doe by div_lia. div_lia.
Qed.

Lemma civil_from_days_valid (z : Z) : valid_month_day (civil_from_days z).
Proof.
  unfold civil_from_days. apply civil_of_doe_valid. div_lia.
Qed.

Lemma civil_from_days_year (z : Z) :
  let y := year (civil_from_days z) in
  (-2440587 <= z -> -4800 <= y) /\
  (-719162 <= z -> 1 <= y) /\
  (z <= 2932896 -> y <= 9999).
Proof.
  unfold civil_from_days, civil_of_doe. cbn [year month day].
  cbv zeta. split_ifs; boolZ; div_lia.
Qed.

Lemma civil_of_doe_inverse (era yoe mp d : Z) :
  0 <= yoe <= 399 -> 0 <= mp <= 11 -> 1 <= d ->
  (153 * mp + 2) / 5 + d - 1 < (153 * (mp + 1) + 2) / 5 ->
  (mp = 11 -> d <= 29) ->
  (mp = 11 -> d = 29 ->
   (yoe + 1) mod 4 = 0 /\ ((yoe + 1) mod 100 <> 0 \/ yoe = 399)) ->
  civil_of_doe era
    (yoe * 365 + yoe / 4 - yoe / 100 + ((153 * mp + 2) / 5 + d - 1)) =
  Civil (yoe + era * 400 +
         (if (if mp <? 10 then mp + 3 else mp - 9) <=? 2 then 1 else 0))
        (if mp <? 10 then mp + 3 else mp - 9) d.
Proof.
  intros Hy Hmp Hd1 Hd2 Hf Hl.
  unfold civil_of_doe.
  set (doy := (153 * mp + 2) / 5 + d - 1).
  set (doe := yoe * 365 + yoe / 4 - yoe / 100 + doy).
  assert (Hdoy : 0 <= doy <= 365 /\ (doy = 365 -> mp = 11 /\ d = 29))
    by (subst doy; div_lia).
  assert (E1 : (doe - doe / 1460 + doe / 36524 - doe / 146096) / 365 = yoe)
    by (subst doe; div_lia).
  rewrite E1.
  assert (E2 : doe - (365 * yoe + yoe / 4 - yoe / 100) = doy)
    by (subst doe; lia).
  rewrite E2.
  assert (E3 : (5 * doy + 2) / 153 = mp) by (subst doy; div_lia).
  rewrite E3.
  assert (E4 : doy - (153 * mp + 2) / 5 + 1 = d) by (subst doy; lia).
  rewrite E4. reflexivity.
Qed.

(** Date to day number and back, for a date with a real month and day. *)
Lemma civil_from_days_from_civil (c : civil) :
  valid_month_day c -> civil_from_days (days_from_civil c) = c.
Proof.
  destruct c as [y m d]. unfold valid_month_day, days_in_month.
  cbn [year month day]. intros [Hm Hd].
  set (y' := if m <=? 2 then y - 1 else y).
  set (era := y' / 400).
  set (yoe := y' - era * 400).
  set (mp := if 2 <? m then m - 3 else m + 9).
  assert (Hyoe : 0 <= yoe <= 399) by (subst yoe era; div_lia).
  assert (Hmp : 0 <= mp <= 11) by (subst mp; split_ifs; boolZ; lia).
  assert (Hleap : m = 2 -> d = 29 ->
                  (yoe + 1) mod 4 = 0 /\
                  ((yoe + 1) mod 100 <> 0 \/ yoe = 399)).
  { intros -> ->. simpl in Hd. destruct (is_leap y) eqn:EL; [|lia].
    apply is_leap_spec in EL. subst yoe era y'. simpl. div_lia. }
  assert (Hlen : (153 * mp + 2) / 5 + d - 1 < (153 * (mp + 1) + 2) / 5 /\
                 (mp = 11 -> d <= 29)).
  { subst mp. clear Hleap. split_ifs; boolZ; div_lia. }
  destruct Hlen as [Hlen Hfeb].
  assert (Hz : days_from_civil (Civil y m d) + 719468 =
               era * 146097 +
               (yoe * 365 + yoe / 4 - yoe / 100 +
                ((153 * mp + 2) / 5 + d - 1))).
  { unfold days_from_civil. cbn [year month day].
    fold y'. fold era. fold yoe. fold mp. lia. }
  unfold civil_from_days. rewrite Hz.
  set (doe := yoe * 365 + yoe / 4 - yoe / 100 + ((153 * mp + 2) / 5 + d - 1)).
  assert (Hdoe : 0 <= doe <= 146096).
  { subst doe. assert (mp = 11 -> d = 29 -> yoe <> 398 \/ True) by tauto.
    assert (Hx : mp = 11 -> d = 29 ->
                 (yoe + 1) mod 4 = 0 /\
                 ((yoe + 1) mod 100 <> 0 \/ yoe = 399)).
    { intros E1 E2. apply Hleap; [|exact E2].
      subst mp. split_ifs; boolZ; lia. }
    div_lia. }
  replace ((era * 146097 + doe) / 146097) with era by div_lia.
  replace ((era * 146097 + doe) mod 146097) with doe by div_lia.
  subst doe. rewrite civil_of_doe_inverse; try assumption.
  - f_equal.
    + subst yoe era y' mp. split_ifs; boolZ; lia.
    + subst mp. split_ifs; boolZ; lia.
  - lia.
  - intros E1 E2. apply Hleap; [|exact E2].
    subst mp. split_ifs; boolZ; lia.
Qed.

Lemma days_from_civil_closed (c : civil) :
  1 <= month c <= 12 ->
  let y := if month c <=? 2 then year c - 1 else year c in
  let mp := if 2 <? month c then month c - 3 else month c + 9 in
  days_from_civil c =
  365 * y + y / 4 - y / 100 + y / 400 + (153 * mp + 2) / 5 + day c - 719469.
Proof.
  intros Hm. unfold days_from_civil. cbv zeta.
  split_ifs; boolZ; div_lia.
Qed.

(** The day number respects the order of the calendar. *)
Lemma days_from_civil_lt (a b : civil) :
  valid_month_day a -> valid_month_day b ->
  civil_key a < civil_key b -> days_from_civil a < days_from_civil b.
Proof.
  intros [Ham Had] [Hbm Hbd] Hk.
  rewrite !days_from_civil_closed by assumption. cbv zeta.
  destruct a as [y1 m1 d1], b as [y2 m2 d2].
  unfold civil_key in *. cbn [year month day] in *.
  assert (Hb1 : 1 <= d2 <= 31).
  { unfold days_in_month in Hbd. revert Hbd. split_ifs; lia. }
  clear Hbd.
  assert (Hcase : y1 < y2 \/ (y1 = y2 /\ (m1 < m2 \/ (m1 = m2 /\ d1 < d2)))).
  { assert (d1 <= 31) by (unfold days_in_month in Had; revert Had;
                          split_ifs; lia).
    lia. }
  clear Hk. unfold days_in_month in Had.
  destruct (is_leap y1) eqn:L1.
  - apply is_leap_spec in L1.
    split_ifs; boolZ; div_lia.
  - assert (HL : ~ ((y1 mod 4 = 0 /\ y1 mod 100 <> 0) \/ y1 mod 400 = 0)).
    { rewrite <- is_leap_spec. congruence. }
    clear L1.
    split_ifs; boolZ; div_lia.
Qed.

Lemma civil_key_inj (a b : civil) : 
  1 <= month a <= 12 -> 1 <= day a <= 31 ->
  1 <= month b <= 12 -> 1 <= day b <= 31 ->
  civil_key a = civil_key b -> a = b.
Proof.
  destruct a, b. unfold civil_key. cbn [year month day]. intros.
  f_equal; lia.
Qed.

Lemma days_in_month_le_31 (y m : Z) : days_in_month y m <= 31.
Proof. unfold days_in_month. split_ifs; lia. Qed.

Lemma valid_month_day_range (c : civil) :
  valid_month_day c -> 1 <= month c <= 12 /\ 1 <= day c <= 31.
Proof.
  intros [Hm Hd]. pose proof (days_in_month_le_31 (year c) (month c)). lia.
Qed.

Lemma days_from_civil_compare (a b : civil) :
  valid_month_day a -> valid_month_day b ->
  (days_from_civil a ?= days_from_civil b) = (civil_key a ?= civil_key b).
Proof.
  intros Ha Hb.
  destruct (Z.compare_spec (civil_key a) (civil_key b)) as [E|L|G].
  - apply valid_month_day_range in Ha as Ha', Hb as Hb'.
    apply civil_key_inj in E; [|tauto..]. subst b. apply Z.compare_refl.
  - apply Z.compare_lt_iff. now apply days_from_civil_lt.
  - apply Z.compare_gt_iff. now apply days_from_civil_lt.
Qed.

Lemma valid_date_month_day (c : civil) :
  valid_date c -> valid_month_day c /\ 1 <= year c <= 9999.
Proof.
  unfold valid_date, valid_dateb, valid_month_day. intros H. boolZ. lia.
Qed.

Lemma valid_date_days (c : civil) :
  valid_date c -> -719162 <= days_from_civil c <= 2932896.
Proof.
  intros H. apply valid_date_month_day in H as [Hv Hy].
  apply valid_month_day_range in Hv as [Hm Hd].
  rewrite days_from_civil_closed by assumption. cbv zeta.
  split_ifs; boolZ; div_lia.
Qed.

(** ** The week arithmetic of [date(date, 'weekday 0', '-6 days')] *)

Lemma week_start_days_monday (z : Z) : weekday (week_start_days z) = Monday.
Proof.
  unfold week_start_days, minus_6_days, weekday_0, weekday, Monday. div_lia.
Qed.

Lemma week_start_days_bounds (z : Z) :
  week_start_days z <= z <= week_start_days z + 6.
Proof.
  unfold week_start_days, minus_6_days, weekday_0, weekday. div_lia.
Qed.

Lemma week_start_days_fixed (z : Z) :
  weekday z = Monday -> week_start_days z = z.
Proof.
  unfold week_start_days, minus_6_days, weekday_0, weekday, Monday. div_lia.
Qed.

Lemma week_start_days_range (z : Z) :
  -719162 <= z <= 2932896 -> -719162 <= week_start_days z <= 2932896.
Proof.
  unfold week_start_days, minus_6_days, weekday_0, weekday. div_lia.
Qed.

(** ** The text form of dates *)

Ltac digit_cases d :=
  let H := fresh "H" in
  assert (H : d = 0 \/ d = 1 \/ d = 2 \/ d = 3 \/ d = 4 \/
              d = 5 \/ d = 6 \/ d = 7 \/ d = 8 \/ d = 9) by lia;
  repeat (destruct H as [H|H]; [subst d|]); [..|subst d].

Lemma digit_of_digit_char (d : Z) :
  0 <= d <= 9 -> digit_of_char (digit_char d) = Some d.
Proof. intros Hd. digit_cases d; reflexivity. Qed.

Lemma digit_char_not_dash (d : Z) :
  0 <= d <= 9 -> Ascii.eqb (digit_char d) dash = false.
Proof. intros Hd. digit_cases d; reflexivity. Qed.

Lemma digit_char_compare (a b : Z) :
  0 <= a <= 9 -> 0 <= b <= 9 ->
  Ascii.compare (digit_char a) (digit_char b) = (a ?= b).
Proof. intros Ha Hb. digit_cases a; digit_cases b; reflexivity. Qed.

Lemma digit_of_char_inv (c : ascii) (d : Z) :
  digit_of_char c = Some d -> 0 <= d <= 9 /\ c = digit_char d.
Proof.
  unfold digit_of_char, digit_char. intros H.
  destruct (_ && _) eqn:E; [|discriminate]. injection H as <-.
  boolZ. split; [lia|].
  rewrite <- (ascii_N_embedding c) at 1. f_equal. lia.
Qed.

Lemma get_two_digits (n : Z) (rest : string) :
  0 <= n <= 99 -> get_digits 2 (two_digits n rest) 0 = Some (n, rest).
Proof.
  intros Hn. unfold two_digits. cbn [get_digits].
  rewrite !digit_of_digit_char by div_lia.
  do 2 f_equal. div_lia.
Qed.

Lemma get_four_digits (n : Z) (rest : string) :
  0 <= n <= 9999 -> get_digits 4 (four_digits n rest) 0 = Some (n, rest).
Proof.
  intros Hn. unfold four_digits, two_digits. cbn [get_digits].
  rewrite !digit_of_digit_char by div_lia.
  do 2 f_equal. div_lia.
Qed.

Lemma expect_dash (s : string) : expect_char dash (String dash s) = Some s.
Proof. reflexivity. Qed.

(** Reading back what [date()] printed. *)
Lemma parse_format_date (c : civil) :
  printable c -> parse_yyyy_mm_dd (format_date c) = Some c.
Proof.
  destruct c as [y m d]. unfold printable. cbn [year month day].
  intros (Hy & Hm & Hd).
  assert (Hbody : forall neg,
    parse_digits neg
      (four_digits (Z.abs y)
         (String dash (two_digits m (String dash (two_digits d EmptyString)))))
    = Some (Civil (if neg then - Z.abs y else Z.abs y) m d)).
  { intros neg. unfold parse_digits.
    rewrite get_four_digits by lia. rewrite expect_dash.
    rewrite get_two_digits by lia. rewrite expect_dash.
    rewrite get_two_digits by lia.
    replace ((1 <=? m) && (m <=? 12) && (1 <=? d) && (d <=? 31)) with true;
      [reflexivity|].
    symmetry. rewrite !andb_true_iff, !Z.leb_le. lia. }
  unfold format_date. cbn [year month day].
  destruct (y <? 0) eqn:E; boolZ.
  - unfold parse_yyyy_mm_dd. change (Ascii.eqb dash dash) with true. cbv iota.
    rewrite Hbody. do 2 f_equal. lia.
  - unfold parse_yyyy_mm_dd.
    unfold four_digits at 1.
    rewrite digit_char_not_dash by div_lia.
    fold (four_digits (Z.abs y)
      (String dash (two_digits m (String dash (two_digits d EmptyString))))).
    rewrite Hbody. do 2 f_equal. lia.
Qed.

Lemma four_digits_split (n : Z) (rest : string) :
  0 <= n <= 9999 ->
  four_digits n rest = two_digits (n / 100) (two_digits (n mod 100) rest).
Proof.
  intros Hn. unfold four_digits, two_digits.
  repeat (f_equal; try div_lia).
Qed.

Lemma compare_two_digits (x y : Z) (s t : string) :
  0 <= x <= 99 -> 0 <= y <= 99 ->
  String.compare (two_digits x s) (two_digits y t) =
  match x ?= y with Eq => String.compare s t | ne => ne end.
Proof.
  intros Hx Hy. unfold two_digits. cbn [String.compare].
  rewrite !digit_char_compare by div_lia.
  destruct (Z.compare_spec (x / 10 mod 10) (y / 10 mod 10));
    destruct (Z.compare_spec (x mod 10) (y mod 10));
    destruct (Z.compare_spec x y); try reflexivity; exfalso; div_lia.
Qed.

Lemma compare_four_digits (x y : Z) (s t : string) :
  0 <= x <= 9999 -> 0 <= y <= 9999 ->
  String.compare (four_digits x s) (four_digits y t) =
  match x ?= y with Eq => String.compare s t | ne => ne end.
Proof.
  intros Hx Hy. rewrite !four_digits_split by assumption.
  rewrite !compare_two_digits by div_lia.
  destruct (Z.compare_spec (x / 100) (y / 100));
    destruct (Z.compare_spec (x mod 100) (y mod 100));
    destruct (Z.compare_spec x y); try reflexivity; exfalso; div_lia.
Qed.

Lemma compare_dash (s t : string) :
  String.compare (String dash s) (String dash t) = String.compare s t.
Proof. reflexivity. Qed.

(** On dates of the years 0000 to 9999 the order of the texts is the order
    of the calendar. *)
Lemma format_date_compare (a b : civil) :
  0 <= year a <= 9999 -> 0 <= year b <= 9999 ->
  1 <= month a <= 12 -> 1 <= month b <= 12 ->
  1 <= day a <= 31 -> 1 <= day b <= 31 ->
  String.compare (format_date a) (format_date b) =
  (civil_key a ?= civil_key b).
Proof.
  destruct a as [y1 m1 d1], b as [y2 m2 d2]. cbn [year month day].
  intros Hy1 Hy2 Hm1 Hm2 Hd1 Hd2. unfold format_date, civil_key.
  cbn [year month day].
  replace (y1 <? 0) with false by (symmetry; apply Z.ltb_ge; lia).
  replace (y2 <? 0) with false by (symmetry; apply Z.ltb_ge; lia).
  rewrite !Z.abs_eq by lia.
  rewrite compare_four_digits, compare_dash, compare_two_digits,
    compare_dash, compare_two_digits by lia.
  cbn [String.compare].
  destruct (Z.compare_spec y1 y2); destruct (Z.compare_spec m1 m2);
    destruct (Z.compare_spec d1 d2); symmetry.
  all: first [ apply Z.compare_eq_iff; lia | apply Z.compare_lt_iff; lia
             | apply Z.compare_gt_iff; lia ].
Qed.

Lemma get_digits_cons (k : nat) (c : ascii) (r : string) (acc : Z) :
  get_digits (S k) (String c r) acc =
  match digit_of_char c with
  | Some d => get_digits k r (10 * acc + d)
  | None => None
  end.
Proof. reflexivity. Qed.

Lemma get_digits_0 (s : string) (acc : Z) : get_digits 0 s acc = Some (acc, s).
Proof. reflexivity. Qed.

Ltac read_digit E :=
  rewrite get_digits_cons;
  match goal with
  | |- match digit_of_char ?c with _ => _ end = _ -> _ =>
      destruct (digit_of_char c) eqn:E; [|discriminate]
  end.

Lemma get_digits_2_inv (s : string) (n : Z) (rest : string) :
  get_digits 2 s 0 = Some (n, rest) ->
  0 <= n <= 99 /\ s = two_digits n rest.
Proof.
  destruct s as [|c1 [|c2 r]]; try discriminate.
  - read_digit E1. discriminate.
  - read_digit E1. read_digit E2.
    rewrite get_digits_0. intros H.
    match type of H with Some (?a, ?b) = _ =>
      assert (Hn : n = a) by congruence; assert (Hr : rest = b) by congruence
    end.
    clear H. subst n rest.
    apply digit_of_char_inv in E1 as [R1 ->], E2 as [R2 ->].
    split; [lia|]. unfold two_digits. repeat (f_equal; try div_lia).
Qed.

Lemma get_digits_4_inv (s : string) (n : Z) (rest : string) :
  get_digits 4 s 0 = Some (n, rest) ->
  0 <= n <= 9999 /\ s = four_digits n rest.
Proof.
  destruct s as [|c1 [|c2 [|c3 [|c4 r]]]]; try discriminate.
  - read_digit E1. discriminate.
  - read_digit E1. read_digit E2. discriminate.
  - read_digit E1. read_digit E2. read_digit E3. discriminate.
  - read_digit E1. read_digit E2. read_digit E3. read_digit E4.
    rewrite get_digits_0. intros H.
    match type of H with Some (?a, ?b) = _ =>
      assert (Hn : n = a) by congruence; assert (Hr : rest = b) by congruence
    end.
    clear H. subst n rest.
    apply digit_of_char_inv in E1 as [R1 ->], E2 as [R2 ->],
      E3 as [R3 ->], E4 as [R4 ->].
    split; [lia|]. unfold four_digits, two_digits.
    repeat (f_equal; try div_lia).
Qed.

Lemma expect_char_inv (c : ascii) (s r : string) :
  expect_char c s = Some r -> s = String c r.
Proof.
  destruct s as [|c' s']; simpl; [discriminate|].
  destruct (Ascii.eqb c c') eqn:E; [|discriminate].
  apply Ascii.eqb_eq in E. intros H. injection H as <-. now subst.
Qed.

Lemma parse_digits_inv (neg : bool) (s : string) (c : civil) :
  parse_digits neg s = Some c ->
  exists y, 0 <= y <= 9999 /\
            year c = (if neg then - y else y) /\
            1 <= month c <= 12 /\ 1 <= day c <= 31 /\
            s = four_digits y
                  (String dash
                     (two_digits (month c)
                        (String dash (two_digits (day c) EmptyString)))).
Proof.
  unfold parse_digits.
  destruct (get_digits 4 s 0) as [[y s1]|] eqn:E1; [|discriminate].
  destruct (expect_char dash s1) as [s2|] eqn:E2; [|discriminate].
  destruct (get_digits 2 s2 0) as [[m s3]|] eqn:E3; [|discriminate].
  destruct (expect_char dash s3) as [s4|] eqn:E4; [|discriminate].
  destruct (get_digits 2 s4 0) as [[d [|? ?]]|] eqn:E5; try discriminate.
  destruct (_ && _) eqn:R; [|discriminate].
  intros H. injection H as <-. cbn [year month day]. boolZ.
  apply get_digits_4_inv in E1 as [Hy ->].
  apply expect_char_inv in E2 as ->.
  apply get_digits_2_inv in E3 as [Hm ->].
  apply expect_char_inv in E4 as ->.
  apply get_digits_2_inv in E5 as [Hd ->].
  exists y. repeat split; try lia.
Qed.

(** A text that reads as a date of a positive year is the canonical text of
    that date. *)
Lemma parse_inv (s : string) (c : civil) :
  parse_yyyy_mm_dd s = Some c -> 1 <= year c ->
  s = format_date c /\ printable c.
Proof.
  unfold parse_yyyy_mm_dd. destruct s as [|a r]; [discriminate|].
  destruct (Ascii.eqb a dash) eqn:E; intros H Hy;
    apply parse_digits_inv in H as (y & Ry & Ey & Rm & Rd & Es).
  - lia.
  - rewrite Es. unfold format_date, printable.
    replace (year c <? 0) with false by (symmetry; apply Z.ltb_ge; lia).
    rewrite Z.abs_eq by lia. rewrite Ey. repeat split; lia.
Qed.

(** ** The week bucket of a date *)

Lemma week_start_parsed (s : string) (c : civil) :
  parse_yyyy_mm_dd s = Some c ->
  week_start (Some s) =
  if valid_julian_day (week_start_days (days_from_civil c))
  then Some (format_date
               (civil_from_days (week_start_days (days_from_civil c))))
  else None.
Proof. intros H. unfold week_start. now rewrite H. Qed.

Lemma printable_civil_from_days (z : Z) :
  valid_julian_day z = true -> printable (civil_from_days z).
Proof.
  unfold valid_julian_day. intros H. boolZ.
  pose proof (civil_from_days_year z) as Hy. cbv zeta in Hy.
  pose proof (valid_month_day_range _ (civil_from_days_valid z)).
  unfold printable. lia.
Qed.

Lemma parse_civil_from_days (z : Z) :
  valid_julian_day z = true ->
  parse_yyyy_mm_dd (format_date (civil_from_days z)) =
  Some (civil_from_days z).
Proof. intros H. apply parse_format_date. now apply printable_civil_from_days. Qed.

(** The text of a Monday is its own week bucket. *)
Lemma week_start_of_monday (z : Z) :
  valid_julian_day z = true -> weekday z = Monday ->
  week_start (Some (format_date (civil_from_days z))) =
  Some (format_date (civil_from_days z)).
Proof.
  intros Hv Hm.
  rewrite (week_start_parsed _ _ (parse_civil_from_days z Hv)).
  rewrite days_from_civil_from_days, (week_start_days_fixed z Hm), Hv.
  reflexivity.
Qed.

(** Applying the bucket expression twice is applying it once, on every
    text, dates or not. *)
Lemma week_start_involutive (d : option string) :
  week_start (week_start d) = week_start d.
Proof.
  destruct d as [s|]; [|reflexivity].
  destruct (parse_yyyy_mm_dd s) as [c|] eqn:P.
  - rewrite (week_start_parsed s c P).
    destruct (valid_julian_day _) eqn:V; [|reflexivity].
    apply week_start_of_monday; [exact V | apply week_start_days_monday].
  - assert (E : week_start (Some s) = None)
      by (unfold week_start; now rewrite P).
    rewrite E. reflexivity.
Qed.

Lemma valid_julian_day_range (z : Z) :
  -719162 <= z <= 2932896 -> valid_julian_day z = true.
Proof.
  intros H. unfold valid_julian_day. apply andb_true_iff.
  rewrite !Z.leb_le. lia.
Qed.

(** The bucket of a valid date, in closed form. *)
Lemma week_start_valid (s : string) (c : civil) :
  parse_yyyy_mm_dd s = Some c -> valid_date c ->
  week_start (Some s) =
  Some (format_date (civil_from_days (week_start_days (days_from_civil c)))).
Proof.
  intros P V. rewrite (week_start_parsed s c P).
  rewrite valid_julian_day_range; [reflexivity|].
  apply week_start_days_range, valid_date_days, V.
Qed.

Lemma date_days_week_start (s : string) (c : civil) :
  parse_yyyy_mm_dd s = Some c -> valid_date c ->
  exists w, week_start (Some s) = Some w /\
            date_days w = Some (week_start_days (days_from_civil c)).
Proof.
  intros P V. eexists. split; [apply (week_start_valid s c P V)|].
  unfold date_days. rewrite parse_civil_from_days.
  - simpl. now rewrite days_from_civil_from_days.
  - apply valid_julian_day_range, week_start_days_range, valid_date_days, V.
Qed.

(** What the code computes for every valid date: the Monday on or before
    it. *)
Lemma week_start_is_monday_on_or_before (s : string) (c : civil) :
  parse_yyyy_mm_dd s = Some c -> valid_date c ->
  exists w z, week_start (Some s) = Some w /\ date_days w = Some z /\
              weekday z = Monday /\
              z <= days_from_civil c <= z + 6.
Proof.
  intros P V. destruct (date_days_week_start s c P V) as (w & Hw & Hd).
  exists w, (week_start_days (days_from_civil c)).
  repeat split; try assumption.
  - apply week_start_days_monday.
  - apply week_start_days_bounds.
  - apply week_start_days_bounds.
Qed.

(** C9: the bucket expression is idempotent.  For every text that reads as
    a valid calendar date, [week_start] yields a bucket, and the bucket of
    that bucket is the bucket itself. *)
Theorem week_start_idempotent (D : string) (c : civil) :
  parse_yyyy_mm_dd D = Some c -> valid_date c ->
  week_start (Some D) <> None /\
  week_start (week_start (Some D)) = week_start (Some D).
Proof.
  intros P V. split.
  - rewrite (week_start_valid D c P V). discriminate.
  - apply week_start_involutive.
Qed.

Lemma week_start_idempotent_witness :
  week_start (Some "2026-01-10"%string) <> None /\
  week_start (week_start (Some "2026-01-10"%string)) =
  week_start (Some "2026-01-10"%string).
Proof.
  exact (week_start_idempotent "2026-01-10" (Civil 2026 1 10)
                               eq_refl eq_refl).
Defined.

(** C1, on the code: the spec's scenario.  The activities of Monday
    2026-01-05 and Saturday 2026-01-10 are both in the bucket 2026-01-05, a
    Monday; the Sunday 2026-01-04 that the spec names is in the bucket
    2025-12-29, and [weekly_progress] has one row, keyed 2026-01-05. *)
Theorem scenario_week_start_is_monday :
  week_start (Some "2026-01-05"%string) = Some "2026-01-05"%string /\
  week_start (Some "2026-01-10"%string) = Some "2026-01-05"%string /\
  week_start (Some "2026-01-04"%string) = Some "2025-12-29"%string /\
  option_map weekday (date_days "2026-01-05") = Some Monday /\
  option_map weekday (date_days "2026-01-04") = Some Sunday /\
  Summary.weekly_progress (get_summary scenario_store) =
  [[("week_start"%string, VText "2026-01-05");
    ("Tactics"%string, VInt 75)]].
Proof. repeat split; reflexivity. Qed.

(** ** ORDER BY, LIMIT and OFFSET *)

Section OrderByFacts.
Context {A : Type} (leb : A -> A -> bool).

Lemma insert_sorted_perm (x : A) (l : list A) :
  Permutation (insert_sorted leb x l) (x :: l).
Proof.
  induction l as [|y t IH]; simpl; [reflexivity|].
  destruct (leb x y); [reflexivity|].
  rewrite IH. apply perm_swap.
Qed.

Lemma order_by_perm (l : list A) : Permutation (order_by leb l) l.
Proof.
  induction l as [|x t IH]; simpl; [reflexivity|].
  rewrite insert_sorted_perm. now constructor.
Qed.

Lemma In_order_by (x : A) (l : list A) : In x (order_by leb l) <-> In x l.
Proof.
  split; apply Permutation_in;
    [apply order_by_perm | symmetry; apply order_by_perm].
Qed.

Lemma length_order_by (l : list A) :
  List.length (order_by leb l) = List.length l.
Proof. apply Permutation_length, order_by_perm. Qed.

Lemma NoDup_order_by (l : list A) : NoDup l -> NoDup (order_by leb l).
Proof.
  apply Permutation_NoDup. symmetry. apply order_by_perm.
Qed.

Lemma order_by_nil_inv (l : list A) : order_by leb l = [] -> l = [].
Proof.
  intros H. apply Permutation_nil. rewrite <- H. apply order_by_perm.
Qed.
End OrderByFacts.

Lemma In_limit_offset {A : Type} (limit offset : Z) (l : list A) (x : A) :
  In x (limit_offset limit offset l) -> In x l.
Proof.
  unfold limit_offset. intros H.
  assert (Hs : In x (skipn (Z.to_nat offset) l)).
  { destruct (limit <? 0); [exact H|].
    rewrite <- (firstn_skipn (Z.to_nat limit) (skipn (Z.to_nat offset) l)).
    apply in_or_app. now left. }
  rewrite <- (firstn_skipn (Z.to_nat offset) l).
  apply in_or_app. now right.
Qed.

(** ** Pagination *)

Lemma where_clauses_matches (category start_date end_date : option string)
  (a : Activity.t) :
  forallb (fun p => p a) (where_clauses category start_date end_date) =
  matches category start_date end_date a.
Proof.
  unfold where_clauses, matches, clause.
  destruct category as [[|? ?]|], start_date as [[|? ?]|],
    end_date as [[|? ?]|]; simpl;
    rewrite ?andb_true_r, ?andb_assoc; reflexivity.
Qed.

Lemma sql_where_matches (category start_date end_date : option string)
  (rows : list Activity.t) :
  sql_where (where_clauses category start_date end_date) rows =
  filter (matches category start_date end_date) rows.
Proof.
  unfold sql_where. apply filter_ext. intros a. apply where_clauses_matches.
Qed.

(** C3: the [total_count] of GET /activities is the number of rows of the
    whole table that match the filter, the rows of the page all match it,
    and the count does not depend on [limit] and [offset]; the
    [total_count] of GET /mistakes is the number of rows of the table,
    whatever [limit] and [offset]. *)
Theorem total_count_independent_of_page
  (category start_date end_date : option string)
  (limit offset limit' offset' : Z) (db : Store) :
  let page := get_activities limit offset category start_date end_date db in
  let page' :=
    get_activities limit' offset' category start_date end_date db in
  ActivitiesPage.total_count page =
    Z.of_nat (List.length
                (filter (matches category start_date end_date)
                        (activities db))) /\
  ActivitiesPage.total_count page = ActivitiesPage.total_count page' /\
  Forall (fun a => matches category start_date end_date a = true
                   /\ In a (activities db))
         (ActivitiesPage.activities page) /\
  MistakesPage.total_count (get_mistakes limit offset db) =
    Z.of_nat (List.length (mistakes db)) /\
  MistakesPage.total_count (get_mistakes limit offset db) =
    MistakesPage.total_count (get_mistakes limit' offset' db).
Proof.
  cbv zeta. unfold get_activities, get_mistakes.
  cbn [ActivitiesPage.total_count ActivitiesPage.activities
       MistakesPage.total_count].
  rewrite sql_where_matches.
  repeat split; try reflexivity.
  apply Forall_forall. intros a Ha.
  apply In_limit_offset, In_order_by, filter_In in Ha. tauto.
Qed.

Lemma sql_where_nil {R : Type} (rows : list R) : sql_where [] rows = rows.
Proof.
  unfold sql_where. induction rows as [|r t IH]; [reflexivity|].
  cbn [filter forallb]. f_equal. exact IH.
Qed.

(** C10: an empty [category] parameter is the same request as no [category]
    parameter: the query gets no category predicate, so with no date bounds
    every row of the table is counted and rows of every category are on the
    pages. *)
Theorem empty_category_is_no_filter
  (limit offset : Z) (start_date end_date : option string) (db : Store) :
  get_activities limit offset (Some EmptyString) start_date end_date db =
  get_activities limit offset None start_date end_date db /\
  where_clauses (Some EmptyString) None None = [] /\
  ActivitiesPage.total_count
    (get_activities limit offset (Some EmptyString) None None db) =
  Z.of_nat (List.length (activities db)) /\
  ActivitiesPage.activities
    (get_activities limit offset (Some EmptyString) None None db) =
  limit_offset limit offset (order_by activity_newest_first (activities db)).
Proof.
  assert (E : where_clauses (Some EmptyString) None None = [])
    by reflexivity.
  unfold get_activities. rewrite E, !sql_where_nil.
  repeat split; reflexivity.
Qed.

(** ** Deleting *)

Lemma rowcount_zero {R : Type} (f : R -> bool) (rows : list R) :
  Nat.eqb (List.length rows - List.length (filter f rows)) 0 = true <->
  forallb f rows = true.
Proof.
  pose proof (filter_length_le f rows) as Hle.
  rewrite Nat.eqb_eq. split; intros H.
  - apply filter_length_forallb. lia.
  - assert (E : filter f rows = rows).
    { clear Hle. induction rows as [|r t IH]; [reflexivity|].
      simpl in *. apply andb_prop in H as [-> Ht]. f_equal. now apply IH. }
    rewrite E. lia.
Qed.

Lemma absent_after_delete {R : Type} (id : R -> Z) (x : Z) (rows : list R) :
  absent id x (filter (fun r => negb (id r =? x)) rows) = true.
Proof.
  unfold absent. apply forallb_forall. intros r Hr.
  now apply filter_In in Hr.
Qed.

Lemma delete_activity_absent (x : Z) (db : Store) :
  absent Activity.id x (activities db) = true ->
  delete_activity x db = (HTTPException 404 "Activity not found", db).
Proof.
  intros H. unfold delete_activity.
  now rewrite (proj2 (rowcount_zero _ _) H).
Qed.

Lemma delete_mistake_absent (x : Z) (db : Store) :
  absent Mistake.id x (mistakes db) = true ->
  delete_mistake x db = (HTTPException 404 "Mistake not found", db).
Proof.
  intros H. unfold delete_mistake.
  now rewrite (proj2 (rowcount_zero _ _) H).
Qed.

Lemma absent_after_delete_activity (x : Z) (db : Store) :
  absent Activity.id x (activities (snd (delete_activity x db))) = true.
Proof.
  unfold delete_activity.
  destruct (Nat.eqb _ 0) eqn:E; cbn [snd activities].
  - now apply rowcount_zero in E.
  - apply absent_after_delete.
Qed.

Lemma absent_after_delete_mistake (x : Z) (db : Store) :
  absent Mistake.id x (mistakes (snd (delete_mistake x db))) = true.
Proof.
  unfold delete_mistake.
  destruct (Nat.eqb _ 0) eqn:E; cbn [snd mistakes].
  - now apply rowcount_zero in E.
  - apply absent_after_delete.
Qed.

(** C4: deleting an id that no row of the table carries raises
    [HTTPException(404)] and leaves the store as it was, for activities and
    for mistakes; and whatever a first delete of an id did, a second delete
    of the same id raises the 404 and changes nothing. *)
Theorem delete_absent_id_is_not_found (aid mid : Z) (db : Store) :
  absent Activity.id aid (activities db) = true ->
  absent Mistake.id mid (mistakes db) = true ->
  delete_activity aid db = (HTTPException 404 "Activity not found", db) /\
  delete_mistake mid db = (HTTPException 404 "Mistake not found", db) /\
  (forall x,
      delete_activity x (snd (delete_activity x db)) =
      (HTTPException 404 "Activity not found", snd (delete_activity x db))) /\
  (forall x,
      delete_mistake x (snd (delete_mistake x db)) =
      (HTTPException 404 "Mistake not found", snd (delete_mistake x db))).
Proof.
  intros Ha Hm. repeat split.
  - now apply delete_activity_absent.
  - now apply delete_mistake_absent.
  - intros x. apply delete_activity_absent, absent_after_delete_activity.
  - intros x. apply delete_mistake_absent, absent_after_delete_mistake.
Qed.

Lemma delete_absent_id_witness :
  delete_activity 7 scenario_store =
  (HTTPException 404 "Activity not found", scenario_store) /\
  delete_mistake 7 scenario_store =
  (HTTPException 404 "Mistake not found", scenario_store) /\
  delete_activity 2 (snd (delete_activity 2 scenario_store)) =
  (HTTPException 404 "Activity not found",
   snd (delete_activity 2 scenario_store)).
Proof.
  destruct (delete_absent_id_is_not_found 7 7 scenario_store eq_refl eq_refl)
    as (Ha & Hm & Ha2 & _).
  exact (conj Ha (conj Hm (Ha2 2))).
Defined.

(** ** Creating *)

Lemma max_id_bound {R : Type} (id : R -> Z) (seq : Z) (rows : list R) :
  seq <= max_id id seq rows /\
  forall r, In r rows -> id r <= max_id id seq rows.
Proof.
  unfold max_id. induction rows as [|r t [IH1 IH2]]; simpl.
  - split; [lia | tauto].
  - split; [lia|]. intros r' [<-|Hr]; [lia|]. specialize (IH2 r' Hr). lia.
Qed.

Lemma find_fresh {R : Type} (id : R -> Z) (rows : list R) (row : R) :
  (forall r, In r rows -> id r < id row) ->
  find (fun r => id r =? id row) (rows ++ [row]) = Some row.
Proof.
  induction rows as [|r t IH]; simpl; intros H.
  - now rewrite Z.eqb_refl.
  - destruct (id r =? id row) eqn:E.
    + apply Z.eqb_eq in E. specialize (H r (or_introl eq_refl)). lia.
    + apply IH. intros r' Hr'. apply H. now right.
Qed.

(** C8, as stated, fails: a body with [minutes = -5] and the date
    2026-02-30 breaks the invariant, and POST /activities answers with the
    stored row and the table has grown by it. *)
Lemma invalid_activity_is_stored :
  activity_invariant bad_activity = false /\
  create_activity "2026-03-01 10:00:00" bad_activity empty_store =
  (Ok (Activity.Build 1 "2026-02-30" 9 "Tactics" (-5) None
                      "2026-03-01 10:00:00"),
   mkStore [Activity.Build 1 "2026-02-30" 9 "Tactics" (-5) None
                           "2026-03-01 10:00:00"] 1 [] 0).
Proof. split; reflexivity. Qed.

(** C8, amended: POST /activities checks no invariant.  Every body of the
    declared field types whose integers ([week], [minutes]) are 64-bit, on
    a table that has an id left, is stored: the answer is the new row,
    carrying the submitted fields verbatim under an id above every id of
    the table, and the table is the old one with that row appended. *)
Theorem create_activity_stores_every_body
  (now : string) (activity : ActivityCreate.t) (db : Store) :
  fits_int64 (ActivityCreate.week activity) = true ->
  fits_int64 (ActivityCreate.minutes activity) = true ->
  fits_int64 (max_id Activity.id (activities_seq db) (activities db) + 1)
    = true ->
  exists row,
    create_activity now activity db =
    (Ok row,
     mkStore (activities db ++ [row]) (Activity.id row)
             (mistakes db) (mistakes_seq db)) /\
    Activity.date row = ActivityCreate.date activity /\
    Activity.week row = ActivityCreate.week activity /\
    Activity.category row = ActivityCreate.category activity /\
    Activity.minutes row = ActivityCreate.minutes activity /\
    Activity.details row = ActivityCreate.details activity /\
    Activity.created_at row = now /\
    activities_seq db < Activity.id row /\
    Forall (fun r => Activity.id r < Activity.id row) (activities db).
Proof.
  intros _ _ _.
  unfold create_activity.
  set (activity_id :=
         max_id Activity.id (activities_seq db) (activities db) + 1).
  set (row := Activity.Build activity_id _ _ _ _ _ now).
  destruct (max_id_bound Activity.id (activities_seq db) (activities db))
    as [Hseq Hrows].
  assert (Hlt : forall r, In r (activities db) ->
                          Activity.id r < Activity.id row).
  { intros r Hr. specialize (Hrows r Hr). subst row activity_id. simpl. lia. }
  exists row. cbn [activities].
  change activity_id with (Activity.id row) at 1.
  rewrite (find_fresh Activity.id (activities db) row Hlt).
  repeat split; try reflexivity.
  - subst row activity_id. simpl. lia.
  - now apply Forall_forall.
Qed.

Lemma create_activity_stores_every_body_witness :
  exists row,
    create_activity "2026-03-01 10:00:00" bad_activity empty_store =
    (Ok row, mkStore [row] (Activity.id row) [] 0) /\
    Activity.date row = "2026-02-30"%string /\
    Activity.minutes row = -5.
Proof.
  destruct (create_activity_stores_every_body
              "2026-03-01 10:00:00" bad_activity empty_store
              eq_refl eq_refl eq_refl)
    as (row & E & Hd & _ & _ & Hm & _).
  exists row. split; [exact E | split; [exact Hd | exact Hm]].
Defined.

(** ** Mistake statistics *)

Lemma count_by_present (col : Mistake.t -> option string)
  (rows : list Mistake.t) :
  count_by col rows =
  map (fun v =>
         (v, Z.of_nat
               (List.length (filter (String.eqb v) (present_values col rows)))))
      (order_by String.leb (nodup string_dec (present_values col rows))).
Proof. reflexivity. Qed.

Lemma present_values_null (col : Mistake.t -> option string)
  (before after : list Mistake.t) (r : Mistake.t) :
  col r = None ->
  present_values col (before ++ r :: after) =
  present_values col (before ++ after).
Proof.
  intros H. unfold present_values.
  rewrite !flat_map_app. simpl. now rewrite H.
Qed.

Lemma In_present_values (col : Mistake.t -> option string)
  (rows : list Mistake.t) (v : string) :
  In v (present_values col rows) <-> exists r, In r rows /\ col r = Some v.
Proof.
  unfold present_values. rewrite in_flat_map. split.
  - intros (r & Hr & Hv). exists r. split; [exact Hr|].
    destruct (col r); simpl in Hv; [|tauto].
    destruct Hv as [->|[]]. reflexivity.
  - intros (r & Hr & Hv). exists r. split; [exact Hr|].
    rewrite Hv. now left.
Qed.

(** Every bucket of a distribution is the value of some row, so a NULL is
    in no bucket. *)
Lemma count_by_keys (col : Mistake.t -> option string)
  (rows : list Mistake.t) (v : string) (n : Z) :
  In (v, n) (count_by col rows) ->
  (exists r, In r rows /\ col r = Some v) /\
  n = Z.of_nat (List.length (filter (fun r => sql_eq (col r) (Some v)) rows)).
Proof.
  rewrite count_by_present, in_map_iff. intros (v' & E & Hin).
  injection E as -> <-.
  apply In_order_by, nodup_In in Hin. split.
  - now apply In_present_values.
  - f_equal. unfold present_values. clear Hin.
    induction rows as [|r t IH]; [reflexivity|].
    cbn [flat_map filter]. rewrite filter_app, length_app, IH.
    destruct (col r) as [x|]; cbn [sql_eq filter List.length app].
    + rewrite (String.eqb_sym v x).
      destruct (String.eqb x v); reflexivity.
    + reflexivity.
Qed.

(** C6: a mistake whose [mistake_category] is NULL is in no bucket of
    [mistake_distribution]: the distribution of a table holding such a row
    (anywhere in it) is the distribution of the table without the row, while
    [total_count] of GET /mistakes counts the row.  The same holds for a
    NULL [result] and [result_distribution]. *)
Theorem null_values_left_out_of_distributions
  (rows : list Activity.t) (seq1 seq2 : Z)
  (before after : list Mistake.t) (r : Mistake.t) (limit offset : Z) :
  let db := mkStore rows seq1 (before ++ r :: after) seq2 in
  let db_without := mkStore rows seq1 (before ++ after) seq2 in
  (Mistake.mistake_category r = None ->
   MistakesStats.mistake_distribution (get_mistakes_stats db) =
   MistakesStats.mistake_distribution (get_mistakes_stats db_without)) /\
  (Mistake.result r = None ->
   MistakesStats.result_distribution (get_mistakes_stats db) =
   MistakesStats.result_distribution (get_mistakes_stats db_without)) /\
  MistakesPage.total_count (get_mistakes limit offset db) =
  MistakesPage.total_count (get_mistakes limit offset db_without) + 1.
Proof.
  cbv zeta. unfold get_mistakes_stats, get_mistakes.
  cbn [MistakesStats.mistake_distribution MistakesStats.result_distribution
       MistakesPage.total_count mistakes].
  repeat split.
  - intros H. rewrite !count_by_present.
    now rewrite (present_values_null _ before after r H).
  - intros H. rewrite !count_by_present.
    now rewrite (present_values_null _ before after r H).
  - rewrite !length_app. cbn [List.length]. lia.
Qed.

Lemma null_values_left_out_witness :
  MistakesStats.mistake_distribution
    (get_mistakes_stats (mkStore [] 0 [blunder_mistake; null_mistake] 2)) =
  [("Tactics"%string, 1)] /\
  MistakesStats.result_distribution
    (get_mistakes_stats (mkStore [] 0 [blunder_mistake; null_mistake] 2)) =
  [("loss"%string, 1)] /\
  MistakesPage.total_count
    (get_mistakes 20 0 (mkStore [] 0 [blunder_mistake; null_mistake] 2)) = 2.
Proof.
  destruct (null_values_left_out_of_distributions
              [] 0 2 [blunder_mistake] [] null_mistake 20 0)
    as (Hc & Hr & Ht).
  split; [|split].
  - exact (eq_trans (Hc eq_refl) eq_refl).
  - exact (eq_trans (Hr eq_refl) eq_refl).
  - exact (eq_trans Ht eq_refl).
Defined.

(** ** CSV export *)

Lemma prefix_append (s t : string) : prefix s (s ++ t)%string = true.
Proof.
  induction s as [|c s IH]; simpl.
  - now destruct t.
  - destruct (ascii_dec c c); [exact IH | contradiction].
Qed.

(** C7: with no rows in the tables, GET /export/mistakes answers with an
    empty body (length 0, and no attachment header) and GET /export with
    exactly the line [Date,Week,Category,Minutes,Details] and its line end.
    The activity header opens the body of GET /export on every store, while
    the body of GET /export/mistakes is either empty or opens with the
    column names. *)
Theorem export_of_empty_tables (today : string) (db : Store) :
  activities db = [] -> mistakes db = [] ->
  export_mistakes today db = Csv.Build EmptyString None /\
  String.length (Csv.body (export_mistakes today db)) = 0%nat /\
  Csv.body (export_activities today db) = activity_header_line /\
  (forall db' : Store,
      prefix activity_header_line
             (Csv.body (export_activities today db')) = true) /\
  (forall db' : Store,
      Csv.body (export_mistakes today db') = EmptyString \/
      prefix mistake_header_line
             (Csv.body (export_mistakes today db')) = true).
Proof.
  intros Ha Hm. unfold export_mistakes, export_activities.
  rewrite Ha, Hm. cbn [order_by fold_right Csv.body map String.concat].
  repeat split.
  - intros db'. apply (prefix_append activity_header_line).
  - intros db'. destruct (order_by _ (mistakes db')); cbn [Csv.body].
    + now left.
    + right. apply (prefix_append mistake_header_line).
Qed.

Lemma export_of_empty_tables_witness :
  export_mistakes "20260301" empty_store = Csv.Build EmptyString None /\
  Csv.body (export_activities "20260301" empty_store) = activity_header_line.
Proof.
  destruct (export_of_empty_tables "20260301" empty_store eq_refl eq_refl)
    as (H1 & _ & H3 & _).
  exact (conj H1 H3).
Defined.

(** ** Dictionaries *)

Section DictFacts.
Context {K V : Type} (eqb : K -> K -> bool).
Hypothesis eqb_spec : forall a b, eqb a b = true <-> a = b.

Lemma eqb_same (k : K) : eqb k k = true.
Proof. now apply eqb_spec. Qed.

Lemma eqb_other (k k' : K) : k <> k' -> eqb k k' = false.
Proof.
  intros H. destruct (eqb k k') eqn:E; [|reflexivity].
  now apply eqb_spec in E.
Qed.

Lemma dict_get_set_eq (k : K) (v : V) (d : list (K * V)) :
  dict_get eqb k (dict_set eqb k v d) = Some v.
Proof.
  induction d as [|[k' v'] t IH]; simpl.
  - now rewrite eqb_same.
  - destruct (eqb k k') eqn:E; simpl.
    + now rewrite eqb_same.
    + now rewrite E.
Qed.

Lemma dict_get_set_ne (k k' : K) (v : V) (d : list (K * V)) :
  k <> k' -> dict_get eqb k' (dict_set eqb k v d) = dict_get eqb k' d.
Proof.
  intros Hne. induction d as [|[k0 v0] t IH]; simpl.
  - rewrite eqb_other; [reflexivity | congruence].
  - destruct (eqb k k0) eqn:E; simpl.
    + apply eqb_spec in E. subst k0.
      rewrite !(eqb_other k' k); congruence.
    + destruct (eqb k' k0); [reflexivity | exact IH].
Qed.

Lemma dict_get_None_iff (k : K) (d : list (K * V)) :
  dict_get eqb k d = None <-> ~ In k (map fst d).
Proof.
  induction d as [|[k' v'] t IH]; simpl; [tauto|].
  destruct (eqb k k') eqn:E.
  - apply eqb_spec in E. subst. split; [discriminate | tauto].
  - rewrite IH. split; [|tauto].
    intros H [E'|H']; [|tauto]. subst k'. now rewrite eqb_same in E.
Qed.

Lemma dict_get_In (k : K) (v : V) (d : list (K * V)) :
  dict_get eqb k d = Some v -> In (k, v) d.
Proof.
  induction d as [|[k' v'] t IH]; simpl; [discriminate|].
  destruct (eqb k k') eqn:E.
  - apply eqb_spec in E. subst. intros H. injection H as ->. now left.
  - intros H. right. now apply IH.
Qed.

Lemma dict_keys_set_present (k : K) (v : V) (d : list (K * V)) :
  In k (map fst d) -> map fst (dict_set eqb k v d) = map fst d.
Proof.
  induction d as [|[k' v'] t IH]; simpl; [tauto|].
  destruct (eqb k k') eqn:E; simpl.
  - apply eqb_spec in E. now subst.
  - intros [E'|H]; [subst; now rewrite eqb_same in E|]. now rewrite IH.
Qed.

Lemma dict_set_absent (k : K) (v : V) (d : list (K * V)) :
  ~ In k (map fst d) -> dict_set eqb k v d = d ++ [(k, v)].
Proof.
  induction d as [|[k' v'] t IH]; simpl; [reflexivity|].
  intros H. rewrite eqb_other by (intros ->; tauto).
  rewrite IH by tauto. reflexivity.
Qed.

(** A dictionary built by setting fresh keys one after the other. *)
Lemma dict_comprehension (f : K -> V) (ks : list K) (d : list (K * V)) :
  NoDup (map fst d ++ ks) ->
  fold_left (fun dm k => dict_set eqb k (f k) dm) ks d =
  d ++ map (fun k => (k, f k)) ks.
Proof.
  revert d. induction ks as [|k t IH]; intros d H; simpl.
  - now rewrite app_nil_r.
  - apply NoDup_remove in H as H'. destruct H' as [Hnd Hnin].
    rewrite dict_set_absent by (intros X; apply Hnin, in_or_app; now left).
    rewrite IH.
    + now rewrite <- app_assoc.
    + rewrite map_app. simpl. rewrite <- app_assoc. exact H.
Qed.

Lemma dict_entries (d : list (K * V)) :
  NoDup (map fst d) ->
  Forall2 (fun k v => dict_get eqb k d = Some v) (map fst d) (map snd d).
Proof.
  induction d as [|[k v] t IH]; simpl; intros H; [constructor|].
  apply NoDup_cons_iff in H as [Hk Ht]. constructor.
  - now rewrite eqb_same.
  - specialize (IH Ht). revert IH. clear Ht.
    assert (Hin : forall k', In k' (map fst t) -> k' <> k) by congruence.
    revert Hin. generalize (map snd t). generalize (map fst t).
    intros ks vs Hin HF. induction HF as [|k' v' ks' vs' H1 H2 IH'];
      constructor.
    + rewrite eqb_other; [exact H1|]. apply Hin. now left.
    + apply IH'. intros k0 Hk0. apply Hin. now right.
Qed.

Lemma dict_get_app (k : K) (l1 l2 : list (K * V)) :
  dict_get eqb k (l1 ++ l2) =
  match dict_get eqb k l1 with
  | Some v => Some v
  | None => dict_get eqb k l2
  end.
Proof.
  induction l1 as [|[k0 v0] l1 IH1]; simpl; [reflexivity|].
  destruct (eqb k k0); [reflexivity | exact IH1].
Qed.

(** Setting the pairs of a list in turn: the last pair of a key decides. *)
Lemma dict_get_fold_set (k : K) (sets : list (K * V)) (d : list (K * V)) :
  dict_get eqb k
    (fold_left (fun o kv => dict_set eqb (fst kv) (snd kv) o) sets d) =
  match dict_get eqb k (rev sets) with
  | Some v => Some v
  | None => dict_get eqb k d
  end.
Proof.
  revert d. induction sets as [|[k' v'] t IH]; intros d; simpl.
  - reflexivity.
  - rewrite IH. clear IH.
    rewrite dict_get_app. destruct (dict_get eqb k (rev t)); [reflexivity|].
    simpl. destruct (eqb k k') eqn:E.
    + apply eqb_spec in E. subst k'. apply dict_get_set_eq.
    + apply dict_get_set_ne. intros ->. now rewrite eqb_same in E.
Qed.
End DictFacts.

Lemma option_string_eqb_spec (a b : option string) :
  option_string_eqb a b = true <-> a = b.
Proof.
  unfold option_string_eqb.
  destruct (option_string_dec a b); split; congruence.
Qed.

Lemma week_category_eqb_spec (a b : option string * string) :
  week_category_eqb a b = true <-> a = b.
Proof.
  unfold week_category_eqb.
  destruct (week_category_dec a b); split; congruence.
Qed.

(** ** The pivot of [get_summary] *)

Lemma data_map_step_eq (dm : list (option string * json_object))
  (r : option string * string * Z) :
  data_map_step dm r =
  match dict_get option_string_eqb (row_week r) dm with
  | Some obj => dict_set option_string_eqb (row_week r) (object_step obj r) dm
  | None => dm
  end.
Proof. destruct r as [[w c] m]. reflexivity. Qed.

Lemma data_map_step_keys (dm : list (option string * json_object))
  (r : option string * string * Z) :
  map fst (data_map_step dm r) = map fst dm.
Proof.
  rewrite data_map_step_eq.
  destruct (dict_get option_string_eqb (row_week r) dm) as [obj|] eqn:E;
    [|reflexivity].
  apply (dict_keys_set_present _ option_string_eqb_spec).
  apply (dict_get_In _ option_string_eqb_spec) in E.
  apply (in_map fst) in E. exact E.
Qed.

Lemma data_map_fold_keys (T : list (option string * string * Z))
  (dm : list (option string * json_object)) :
  map fst (fold_left data_map_step T dm) = map fst dm.
Proof.
  revert dm. induction T as [|r t IH]; intros dm; simpl; [reflexivity|].
  now rewrite IH, data_map_step_keys.
Qed.

Lemma data_map_step_get (k : option string)
  (dm : list (option string * json_object))
  (r : option string * string * Z) :
  dict_get option_string_eqb k (data_map_step dm r) =
  option_map (fun obj => if option_string_eqb (row_week r) k
                         then object_step obj r else obj)
             (dict_get option_string_eqb k dm).
Proof.
  rewrite data_map_step_eq.
  destruct (option_string_eqb (row_week r) k) eqn:E.
  - apply option_string_eqb_spec in E. subst k.
    destruct (dict_get option_string_eqb (row_week r) dm) as [obj|] eqn:G.
    + now rewrite (dict_get_set_eq _ option_string_eqb_spec).
    + now rewrite G.
  - assert (Hne : row_week r <> k).
    { intros X. rewrite X in E.
      now rewrite (proj2 (option_string_eqb_spec k k)) in E. }
    destruct (dict_get option_string_eqb (row_week r) dm) as [obj|] eqn:G.
    + rewrite (dict_get_set_ne _ option_string_eqb_spec) by exact Hne.
      now destruct (dict_get option_string_eqb k dm).
    + now destruct (dict_get option_string_eqb k dm).
Qed.

Lemma data_map_fold_get (k : option string)
  (T : list (option string * string * Z))
  (dm : list (option string * json_object)) :
  dict_get option_string_eqb k (fold_left data_map_step T dm) =
  option_map
    (fun obj =>
       fold_left object_step
         (filter (fun r => option_string_eqb (row_week r) k) T) obj)
    (dict_get option_string_eqb k dm).
Proof.
  revert dm. induction T as [|r t IH]; intros dm; simpl.
  - now destruct (dict_get option_string_eqb k dm).
  - rewrite IH, data_map_step_get.
    destruct (dict_get option_string_eqb k dm) as [obj|]; [|reflexivity].
    simpl. now destruct (option_string_eqb (row_week r) k).
Qed.

Lemma data_map_init_eq (weeks : list (option string)) :
  NoDup weeks ->
  data_map_init weeks = map (fun w => (w, week_object w)) weeks.
Proof.
  intros H. unfold data_map_init.
  apply (dict_comprehension _ option_string_eqb_spec week_object weeks []).
  exact H.
Qed.

Lemma dict_get_graph {K V : Type} (eqb : K -> K -> bool)
  (eqb_spec : forall a b, eqb a b = true <-> a = b)
  (f : K -> V) (k : K) (ks : list K) :
  In k ks -> dict_get eqb k (map (fun w => (w, f w)) ks) = Some (f k).
Proof.
  induction ks as [|k' t IH]; simpl; [tauto|].
  destruct (eqb k k') eqn:E.
  - apply eqb_spec in E. now subst.
  - intros [->|H]; [|now apply IH].
    now rewrite (proj2 (eqb_spec k k) eq_refl) in E.
Qed.

Lemma Forall2_impl_In {A B : Type} (R R' : A -> B -> Prop)
  (l1 : list A) (l2 : list B) :
  (forall a b, In a l1 -> R a b -> R' a b) ->
  Forall2 R l1 l2 -> Forall2 R' l1 l2.
Proof.
  intros H HF. induction HF as [|a b l1' l2' Hab HF' IH]; constructor.
  - apply H; [now left | exact Hab].
  - apply IH. intros a' b' Hin. apply H. now right.
Qed.

(** The objects of [weekly_progress], one per week of the list, each the
    week's own object after the assignments of that week's total rows. *)
Lemma weekly_progress_objects (rows : list Activity.t) :
  let weeks := rev (recent_weeks rows) in
  NoDup weeks ->
  Forall2
    (fun w obj =>
       obj = fold_left object_step
               (filter (fun r => option_string_eqb (row_week r) w)
                       (weekly_totals weeks rows))
               (week_object w))
    weeks (weekly_progress_of rows).
Proof.
  intros weeks Hnd.
  set (T := weekly_totals weeks rows).
  set (final := fold_left data_map_step T (data_map_init weeks)).
  assert (Hkeys : map fst final = weeks).
  { subst final. rewrite data_map_fold_keys, data_map_init_eq by exact Hnd.
    rewrite map_map. simpl. apply map_id. }
  assert (Hprog : weekly_progress_of rows = dict_values final).
  { unfold weekly_progress_of. fold weeks. fold T. fold final.
    destruct weeks as [|w ws] eqn:E; [|reflexivity].
    destruct final; [reflexivity | discriminate]. }
  rewrite Hprog. unfold dict_values.
  assert (HF : Forall2
                 (fun k v => dict_get option_string_eqb k final = Some v)
                 (map fst final) (map snd final)).
  { apply (dict_entries _ option_string_eqb_spec). now rewrite Hkeys. }
  rewrite Hkeys in HF. revert HF. apply Forall2_impl_In.
  intros w obj Hin Hget. subst final.
  rewrite data_map_fold_get, data_map_init_eq in Hget by exact Hnd.
  rewrite (dict_get_graph _ option_string_eqb_spec week_object w weeks Hin)
    in Hget.
  simpl in Hget. now injection Hget as <-.
Qed.

Lemma sql_in_In (w : string) (weeks : list (option string)) :
  sql_in (Some w) weeks = true <-> In (Some w) weeks.
Proof.
  unfold sql_in. rewrite existsb_exists. split.
  - intros ([s|] & Hin & E); [|discriminate].
    apply String.eqb_eq in E. now subst.
  - intros H. exists (Some w). split; [exact H | apply String.eqb_refl].
Qed.

Lemma sql_eq_true (a : option string) (w : string) :
  sql_eq a (Some w) = true <-> a = Some w.
Proof.
  destruct a as [x|]; simpl.
  - rewrite String.eqb_eq. split; congruence.
  - split; discriminate.
Qed.

Lemma week_category_eqb_split (a : Activity.t) (w c : string) :
  week_category_eqb (week_category a) (Some w, c) = in_week_category w c a.
Proof.
  unfold in_week_category, week_category.
  destruct (week_category_eqb _ _) eqn:E.
  - apply week_category_eqb_spec in E. injection E as E1 E2.
    rewrite E1, E2. simpl. now rewrite !String.eqb_refl.
  - symmetry. apply not_true_is_false. intros H.
    apply andb_prop in H as [H1 H2].
    apply sql_eq_true in H1. apply String.eqb_eq in H2.
    rewrite H1, H2 in E.
    now rewrite (proj2 (week_category_eqb_spec _ _) eq_refl) in E.
Qed.

Lemma filter_kept_week (rows : list Activity.t)
  (weeks : list (option string)) (w c : string) :
  In (Some w) weeks ->
  filter (fun a => week_category_eqb (week_category a) (Some w, c))
         (filter (fun a => sql_in (activity_week_start a) weeks) rows) =
  filter (in_week_category w c) rows.
Proof.
  intros Hin. induction rows as [|a t IH]; [reflexivity|].
  cbn [filter].
  destruct (sql_in (activity_week_start a) weeks) eqn:E.
  - cbn [filter]. rewrite week_category_eqb_split, IH. reflexivity.
  - rewrite IH.
    replace (in_week_category w c a) with false; [reflexivity|].
    symmetry. apply not_true_is_false. intros H.
    unfold in_week_category in H. apply andb_prop in H as [H1 _].
    apply sql_eq_true in H1. rewrite H1 in E.
    now rewrite (proj2 (sql_in_In w weeks) Hin) in E.
Qed.

Lemma fold_object_step (T : list (option string * string * Z))
  (obj : json_object) :
  fold_left object_step T obj =
  fold_left (fun o kv => dict_set String.eqb (fst kv) (snd kv) o)
            (map (fun r => (row_category r, VInt (row_minutes r))) T) obj.
Proof.
  revert obj. induction T as [|r t IH]; intros obj; simpl;
    [reflexivity | apply IH].
Qed.

(** What a total row of week [w] and category [c] holds. *)
Lemma weekly_totals_row (rows : list Activity.t)
  (weeks : list (option string)) (w c : string) (m : Z) :
  In (Some w) weeks ->
  In (Some w, c, m) (weekly_totals weeks rows) <->
  week_minutes rows w c <> [] /\ m = sum_Z (week_minutes rows w c).
Proof.
  intros Hin. unfold weekly_totals, week_minutes.
  rewrite in_map_iff. split.
  - intros (k & E & Hk). injection E as -> <-.
    rewrite filter_kept_week by exact Hin. split; [|reflexivity].
    apply In_order_by, nodup_In, in_map_iff in Hk.
    destruct Hk as (a & Ea & Ha).
    assert (Hm : In a (filter (in_week_category w c) rows)).
    { rewrite <- (filter_kept_week rows weeks w c Hin).
      apply filter_In. split; [exact Ha|].
      apply week_category_eqb_spec. exact Ea. }
    intros Hnil. apply (in_map Activity.minutes) in Hm.
    rewrite Hnil in Hm. exact Hm.
  - intros [Hne ->]. exists (Some w, c). split.
    + now rewrite filter_kept_week by exact Hin.
    + apply In_order_by, nodup_In, in_map_iff.
      destruct (filter (in_week_category w c) rows) as [|a l] eqn:E;
        [now elim Hne|].
      assert (Ha : In a (filter (in_week_category w c) rows))
        by (rewrite E; now left).
      rewrite <- (filter_kept_week rows weeks w c Hin) in Ha.
      apply filter_In in Ha as [Ha1 Ha2].
      exists a. split; [|exact Ha1].
      now apply week_category_eqb_spec.
Qed.

(** The fields of the object of week [w]. *)
Lemma week_object_field (rows : list Activity.t)
  (weeks : list (option string)) (w c : string) :
  In (Some w) weeks ->
  dict_get String.eqb c
    (fold_left object_step
       (filter (fun r => option_string_eqb (row_week r) (Some w))
               (weekly_totals weeks rows))
       (week_object (Some w))) =
  match week_minutes rows w c with
  | [] => dict_get String.eqb c (week_object (Some w))
  | mins => Some (VInt (sum_Z mins))
  end.
Proof.
  intros Hin. rewrite fold_object_step.
  rewrite (dict_get_fold_set _ String.eqb_eq).
  set (Tw := filter _ (weekly_totals weeks rows)).
  set (E := rev (map (fun r => (row_category r, VInt (row_minutes r))) Tw)).
  assert (HTw : forall c' m, In (Some w, c', m) Tw <->
                             In (Some w, c', m) (weekly_totals weeks rows)).
  { intros c' m. subst Tw. rewrite filter_In. split; [tauto|].
    intros H. split; [exact H|]. now apply option_string_eqb_spec. }
  destruct (dict_get String.eqb c E) as [v|] eqn:G.
  - apply (dict_get_In _ String.eqb_eq) in G.
    subst E. apply in_rev, in_map_iff in G.
    destruct G as ([[w' c'] m] & Er & Hr).
    unfold row_category, row_minutes in Er. simpl in Er.
    injection Er as -> <-.
    assert (Hw : w' = Some w).
    { subst Tw. apply filter_In in Hr as [_ Hr].
      apply option_string_eqb_spec in Hr. exact Hr. }
    subst w'. apply HTw, weekly_totals_row in Hr; [|exact Hin].
    destruct Hr as [Hne ->].
    destruct (week_minutes rows w c); [now elim Hne | reflexivity].
  - apply (dict_get_None_iff _ String.eqb_eq) in G.
    destruct (week_minutes rows w c) as [|m0 ms] eqn:M; [reflexivity|].
    exfalso. apply G. subst E. apply in_map_iff.
    exists (c, VInt (sum_Z (week_minutes rows w c))). split; [reflexivity|].
    apply -> in_rev. apply in_map_iff.
    exists (Some w, c, sum_Z (week_minutes rows w c)).
    split; [reflexivity|].
    apply HTw, weekly_totals_row; [exact Hin|].
    split; [|reflexivity]. rewrite M. discriminate.
Qed.

(** ** Sorted lists *)

Section SortedFacts.
Context {A : Type}.

Lemma StronglySorted_impl_In (R R' : A -> A -> Prop) (l : list A) :
  (forall a b, In a l -> In b l -> R a b -> R' a b) ->
  StronglySorted R l -> StronglySorted R' l.
Proof.
  intros H HS. induction HS as [|a l HS IH HF]; constructor.
  - apply IH. intros x y Hx Hy. apply H; now right.
  - rewrite Forall_forall in *. intros x Hx.
    apply H; [now left | now right | now apply HF].
Qed.

Lemma StronglySorted_app (R : A -> A -> Prop) (l1 l2 : list A) :
  StronglySorted R (l1 ++ l2) <->
  StronglySorted R l1 /\ StronglySorted R l2 /\
  (forall x y, In x l1 -> In y l2 -> R x y).
Proof.
  induction l1 as [|a t IH]; simpl.
  - split; [intros H | tauto]. repeat split; [constructor | exact H | tauto].
  - split.
    + intros H. apply StronglySorted_inv in H as [Ht Ha].
      apply IH in Ht as (H1 & H2 & H3). rewrite Forall_forall in Ha.
      repeat split; [constructor | exact H2 |].
      * exact H1.
      * apply Forall_forall. intros x Hx. apply Ha, in_or_app. now left.
      * intros x y [<-|Hx] Hy; [apply Ha, in_or_app; now right|].
        now apply H3.
    + intros (H1 & H2 & H3). apply StronglySorted_inv in H1 as [Ht Ha].
      rewrite Forall_forall in Ha. constructor.
      * apply IH. repeat split; try assumption.
        intros x y Hx Hy. apply H3; [now right | exact Hy].
      * apply Forall_forall. intros x Hx. apply in_app_or in Hx as [Hx|Hx].
        -- now apply Ha.
        -- apply H3; [now left | exact Hx].
Qed.

Lemma StronglySorted_rev (R : A -> A -> Prop) (l : list A) :
  StronglySorted R l -> StronglySorted (fun a b => R b a) (rev l).
Proof.
  intros HS. induction HS as [|a l HS IH HF]; simpl; [constructor|].
  apply StronglySorted_app. repeat split.
  - exact IH.
  - repeat constructor.
  - intros x y Hx [<-|[]]. rewrite Forall_forall in HF.
    apply HF. now apply in_rev.
Qed.

Lemma StronglySorted_firstn_skipn (R : A -> A -> Prop) (n : nat)
  (l : list A) :
  StronglySorted R l ->
  StronglySorted R (firstn n l) /\
  (forall x y, In x (firstn n l) -> In y (skipn n l) -> R x y).
Proof.
  intros H. rewrite <- (firstn_skipn n l) in H.
  apply StronglySorted_app in H. tauto.
Qed.

Lemma StronglySorted_map {B : Type} (f : B -> A) (R : A -> A -> Prop)
  (l : list B) :
  StronglySorted R (map f l) ->
  StronglySorted (fun a b => R (f a) (f b)) l.
Proof.
  induction l as [|b t IH]; simpl; intros H; [constructor|].
  apply StronglySorted_inv in H as [Ht Hb]. constructor; [now apply IH|].
  rewrite Forall_forall in *. intros x Hx. apply Hb. now apply in_map.
Qed.

Lemma Forall2_map_left {B C : Type} (f : B -> A) (R : A -> C -> Prop)
  (l : list B) (l' : list C) :
  Forall2 R (map f l) l' -> Forall2 (fun b c => R (f b) c) l l'.
Proof.
  revert l'. induction l as [|b t IH]; simpl; intros l' H.
  - inversion H. constructor.
  - inversion H; subst. constructor; [assumption | now apply IH].
Qed.
End SortedFacts.

(** [ORDER BY key DESC] sorts, when on the rows at hand the comparison is
    the comparison of an integer key. *)
Section SortedByKey.
Context {A : Type} (geb : A -> A -> bool) (key : A -> Z) (P : A -> Prop).
Hypothesis geb_key : forall a b, P a -> P b -> geb a b = (key b <=? key a).

Lemma insert_sorted_desc (x : A) (l : list A) :
  P x -> Forall P l ->
  StronglySorted (fun a b => key b <= key a) l ->
  StronglySorted (fun a b => key b <= key a) (insert_sorted geb x l).
Proof.
  intros Px. induction l as [|y t IH]; simpl; intros HP HS.
  - repeat constructor.
  - apply Forall_cons_iff in HP as [Py HPt].
    apply StronglySorted_inv in HS as [HSt Hy].
    rewrite (geb_key x y Px Py).
    destruct (key y <=? key x) eqn:E.
    + apply Z.leb_le in E. constructor.
      * now constructor.
      * constructor; [exact E|]. rewrite Forall_forall in *.
        intros z Hz. specialize (Hy z Hz). lia.
    + apply Z.leb_gt in E. constructor; [now apply IH|].
      rewrite Forall_forall in *. intros z Hz.
      apply (Permutation_in _ (insert_sorted_perm geb x t)) in Hz.
      destruct Hz as [<-|Hz]; [lia | now apply Hy].
Qed.

Lemma order_by_desc (l : list A) :
  Forall P l ->
  StronglySorted (fun a b => key b <= key a) (order_by geb l).
Proof.
  induction l as [|x t IH]; simpl; intros HP; [constructor|].
  apply Forall_cons_iff in HP as [Px HPt].
  apply insert_sorted_desc; [exact Px | | now apply IH].
  rewrite Forall_forall in *. intros y Hy. apply HPt.
  now apply In_order_by in Hy.
Qed.

Hypothesis key_inj : forall a b, P a -> P b -> key a = key b -> a = b.

Lemma sorted_desc_strict (l : list A) :
  Forall P l -> NoDup l ->
  StronglySorted (fun a b => key b <= key a) l ->
  StronglySorted (fun a b => key b < key a) l.
Proof.
  intros HP HN HS. induction HS as [|a l HS IH HF]; constructor.
  - apply IH; [now apply Forall_cons_iff in HP | now apply NoDup_cons_iff in HN].
  - apply Forall_cons_iff in HP as [Pa HPl].
    apply NoDup_cons_iff in HN as [Hnin _].
    rewrite Forall_forall in *. intros x Hx.
    specialize (HF x Hx).
    destruct (Z.eq_dec (key x) (key a)) as [E|E]; [|lia].
    apply key_inj in E; [subst; contradiction | now apply HPl | exact Pa].
Qed.
End SortedByKey.

(** ** Week buckets in time order *)

Lemma date_days_format (z : Z) :
  -719162 <= z <= 2932896 ->
  date_days (format_date (civil_from_days z)) = Some z.
Proof.
  intros H. unfold date_days.
  rewrite parse_civil_from_days by now apply valid_julian_day_range.
  simpl. now rewrite days_from_civil_from_days.
Qed.

Lemma is_week_key (o : option string) (z : Z) :
  -719162 <= z <= 2932896 ->
  o = Some (format_date (civil_from_days z)) -> week_key o = z.
Proof.
  intros H ->. unfold week_key, text_key. now rewrite date_days_format.
Qed.

Lemma format_civil_from_days_compare (z1 z2 : Z) :
  -719162 <= z1 <= 2932896 -> -719162 <= z2 <= 2932896 ->
  String.compare (format_date (civil_from_days z1))
                 (format_date (civil_from_days z2)) = (z1 ?= z2).
Proof.
  intros H1 H2.
  pose proof (civil_from_days_year z1) as Y1.
  pose proof (civil_from_days_year z2) as Y2. cbv zeta in Y1, Y2.
  pose proof (civil_from_days_valid z1) as V1.
  pose proof (civil_from_days_valid z2) as V2.
  pose proof (valid_month_day_range _ V1) as R1.
  pose proof (valid_month_day_range _ V2) as R2.
  rewrite format_date_compare by lia.
  rewrite <- days_from_civil_compare by assumption.
  now rewrite !days_from_civil_from_days.
Qed.

Lemma is_week_compare (a b : option string) :
  is_week a -> is_week b ->
  text_null_compare a b = (week_key a ?= week_key b).
Proof.
  intros (z1 & R1 & E1) (z2 & R2 & E2).
  rewrite (is_week_key a z1 R1 E1), (is_week_key b z2 R2 E2).
  subst a b. simpl. now apply format_civil_from_days_compare.
Qed.

Lemma is_week_geb (a b : option string) :
  is_week a -> is_week b ->
  text_null_geb a b = (week_key b <=? week_key a).
Proof.
  intros Ha Hb. unfold text_null_geb. rewrite (is_week_compare a b Ha Hb).
  destruct (Z.compare_spec (week_key a) (week_key b));
    symmetry; [apply Z.leb_le | apply Z.leb_gt | apply Z.leb_le]; lia.
Qed.

Lemma is_week_key_inj (a b : option string) :
  is_week a -> is_week b -> week_key a = week_key b -> a = b.
Proof.
  intros (z1 & R1 & E1) (z2 & R2 & E2).
  rewrite (is_week_key a z1 R1 E1), (is_week_key b z2 R2 E2).
  intros ->. congruence.
Qed.

Lemma activity_is_week (a : Activity.t) :
  valid_activity_date a = true -> is_week (activity_week_start a).
Proof.
  unfold valid_activity_date, is_valid_date_text, activity_week_start.
  destruct (parse_yyyy_mm_dd (Activity.date a)) as [c|] eqn:P;
    [|discriminate].
  intros V. exists (week_start_days (days_from_civil c)). split.
  - apply week_start_days_range, valid_date_days, V.
  - now apply week_start_valid.
Qed.

Lemma In_week_values (rows : list Activity.t) (w : string) :
  In w (week_values rows) <-> In (Some w) (map activity_week_start rows).
Proof.
  unfold week_values. rewrite in_flat_map, in_map_iff.
  split; intros (a & H1 & H2); exists a.
  - destruct (activity_week_start a); simpl in H2; [|tauto].
    destruct H2 as [->|[]]. tauto.
  - split; [tauto|]. rewrite H1. now left.
Qed.

Lemma older_key (w w' : string) :
  is_week (Some w) -> is_week (Some w') ->
  week_key (Some w) < week_key (Some w') -> older w w'.
Proof.
  intros (z1 & R1 & E1) (z2 & R2 & E2).
  injection E1 as ->. injection E2 as ->.
  unfold older, week_key, text_key.
  rewrite !date_days_format by assumption. tauto.
Qed.

Lemma all_some (l : list (option string)) :
  Forall is_week l -> exists k, l = map Some k.
Proof.
  induction 1 as [|o l (z & _ & ->) _ (k & ->)].
  - now exists [].
  - now exists (format_date (civil_from_days z) :: k).
Qed.

Lemma firstn_In_full {A : Type} (n : nat) (l : list A) (x : A) :
  In x (firstn n l) -> In x l.
Proof.
  intros H. rewrite <- (firstn_skipn n l). apply in_or_app. now left.
Qed.

Lemma recent_weeks_kept (rows : list Activity.t) :
  forallb valid_activity_date rows = true ->
  exists kept,
    rev (recent_weeks rows) = map Some kept /\ kept_weeks rows kept.
Proof.
  intros Hvalid. rewrite forallb_forall in Hvalid.
  unfold recent_weeks.
  set (D := nodup option_string_dec (map activity_week_start rows)).
  set (L := order_by text_null_geb D).
  assert (HD : forall o, In o D <-> In o (map activity_week_start rows))
    by (intros o; apply nodup_In).
  assert (HL : forall o, In o L <-> In o (map activity_week_start rows)).
  { intros o. subst L. rewrite In_order_by. apply HD. }
  assert (HW : Forall is_week L).
  { apply Forall_forall. intros o Ho. apply HL, in_map_iff in Ho.
    destruct Ho as (a & <- & Ha). now apply activity_is_week, Hvalid. }
  assert (HWD : Forall is_week D).
  { apply Forall_forall. intros o Ho. rewrite Forall_forall in HW.
    apply HW, HL, HD, Ho. }
  assert (HND : NoDup L) by (apply NoDup_order_by, NoDup_nodup).
  assert (HS : StronglySorted (fun a b => week_key b < week_key a) L).
  { apply (sorted_desc_strict week_key is_week is_week_key_inj L HW HND).
    apply (order_by_desc text_null_geb week_key is_week is_week_geb D HWD). }
  destruct (StronglySorted_firstn_skipn _ 12 L HS) as [HS1 HS2].
  assert (HW1 : Forall is_week (rev (firstn 12 L))).
  { apply Forall_forall. intros o Ho. rewrite Forall_forall in HW.
    apply in_rev, firstn_In_full in Ho. now apply HW. }
  destruct (all_some _ HW1) as (kept & Hkept).
  exists kept. split; [exact Hkept|].
  assert (Hin : forall w, In w kept <-> In (Some w) (firstn 12 L)).
  { intros w. rewrite (in_rev (firstn 12 L)), Hkept, in_map_iff. split.
    - intros H. exists w. tauto.
    - intros (w' & E & H). injection E as ->. exact H. }
  assert (Hwk : forall w, In (Some w) L -> is_week (Some w)).
  { intros w. rewrite Forall_forall in HW. apply HW. }
  assert (Hlen : List.length kept = Nat.min 12 (List.length L)).
  { rewrite <- (length_map Some kept), <- Hkept, length_rev.
    apply length_firstn. }
  unfold kept_weeks. repeat split.
  - apply (NoDup_map_inv Some). rewrite <- Hkept.
    apply NoDup_rev. rewrite <- (firstn_skipn 12 L) in HND.
    now apply NoDup_app_remove_r in HND.
  - intros w Hw. apply In_week_values, HL. apply Hin in Hw.
    now apply firstn_In_full in Hw.
  - lia.
  - intros Hlt w Hw. apply Hin. rewrite firstn_all2 by lia.
    now apply HL, In_week_values.
  - intros w w' Hw Hw' Hnot.
    apply Hin in Hw. apply In_week_values, HL in Hw'.
    assert (Hskip : In (Some w') (skipn 12 L)).
    { rewrite <- (firstn_skipn 12 L) in Hw'.
      apply in_app_or in Hw' as [H|H]; [|exact H].
      now apply Hin in H. }
    apply older_key.
    + apply Hwk. rewrite <- (firstn_skipn 12 L). apply in_or_app. now right.
    + apply Hwk. now apply firstn_In_full in Hw.
    + now apply (HS2 (Some w) (Some w')).
  - apply StronglySorted_rev in HS1. rewrite Hkept in HS1.
    apply StronglySorted_map in HS1.
    revert HS1. apply StronglySorted_impl_In.
    intros a b Ha Hb Hab. apply Hin, firstn_In_full in Ha.
    apply Hin, firstn_In_full in Hb.
    apply older_key; [now apply Hwk | now apply Hwk | exact Hab].
Qed.

Lemma NoDup_map_Some {A : Type} (l : list A) :
  NoDup l -> NoDup (map Some l).
Proof.
  induction 1 as [|x l Hx Hl IH]; simpl; constructor; [|exact IH].
  intros H. apply in_map_iff in H as (y & E & Hy).
  injection E as ->. contradiction.
Qed.

Lemma no_week_start_minutes (rows : list Activity.t) (w : string) :
  forallb no_week_start_category rows = true ->
  week_minutes rows w "week_start" = [].
Proof.
  intros H. rewrite forallb_forall in H. unfold week_minutes.
  replace (filter (in_week_category w "week_start") rows) with
    (@nil Activity.t); [reflexivity|].
  symmetry. induction rows as [|a t IH]; [reflexivity|].
  cbn [filter]. unfold in_week_category at 1.
  specialize (H a (or_introl eq_refl)) as Ha.
  unfold no_week_start_category in Ha. apply negb_true_iff in Ha.
  rewrite Ha, andb_false_r. apply IH. intros x Hx. apply H. now right.
Qed.

(** C2, amended: when every activity date is a valid calendar date and no
    category is named [week_start], [weekly_progress] is what the claim
    says: one row per kept week, the kept weeks being the (at most) 12 most
    recent distinct buckets, rows in ascending time order, and each row
    holding [week_start] plus, for exactly the categories with an activity
    in that week, the sum of that week's minutes. *)
Theorem weekly_progress_pivot (db : Store) :
  forallb valid_activity_date (activities db) = true ->
  forallb no_week_start_category (activities db) = true ->
  weekly_progress_claim (activities db)
                        (Summary.weekly_progress (get_summary db)).
Proof.
  intros Hvalid Hcat. cbn [get_summary Summary.weekly_progress].
  set (rows := activities db) in *.
  destruct (recent_weeks_kept rows Hvalid) as (kept & Hweeks & Hkept).
  exists kept. split; [exact Hkept|].
  assert (Hnd : NoDup (rev (recent_weeks rows))).
  { rewrite Hweeks. apply NoDup_map_Some, Hkept. }
  pose proof (weekly_progress_objects rows Hnd) as HF.
  cbv zeta in HF. rewrite Hweeks in HF at 1.
  apply Forall2_map_left in HF.
  revert HF. apply Forall2_impl_In. intros w obj Hw ->.
  assert (Hin : In (Some w) (rev (recent_weeks rows))).
  { rewrite Hweeks. now apply in_map. }
  split.
  - rewrite (week_object_field rows _ w "week_start" Hin).
    now rewrite (no_week_start_minutes rows w Hcat).
  - intros c Hc. rewrite (week_object_field rows _ w c Hin).
    destruct (week_minutes rows w c); [|reflexivity].
    simpl. destruct (String.eqb c "week_start") eqn:E; [|reflexivity].
    now apply String.eqb_eq in E.
Qed.

Lemma weekly_progress_pivot_witness :
  weekly_progress_claim (activities scenario_store)
                        (Summary.weekly_progress (get_summary scenario_store)).
Proof.
  exact (weekly_progress_pivot scenario_store eq_refl eq_refl).
Defined.

(** C2, as stated, fails on two stores.  With a category named
    [week_start] the category total overwrites the week key of the row:
    the row is [{week_start: 3}].  With a date text that SQLite cannot read
    the bucket is NULL and is kept as a week: the row is
    [{week_start: null}], with no category in it. *)
Lemma weekly_progress_claim_fails :
  Summary.weekly_progress (get_summary week_start_category_store) =
    [[("week_start"%string, VInt 3)]] /\
  ~ weekly_progress_claim
      (activities week_start_category_store)
      (Summary.weekly_progress (get_summary week_start_category_store)) /\
  Summary.weekly_progress (get_summary unreadable_date_store) =
    [[("week_start"%string, VNull)]] /\
  ~ weekly_progress_claim
      (activities unreadable_date_store)
      (Summary.weekly_progress (get_summary unreadable_date_store)).
Proof.
  assert (E1 : Summary.weekly_progress
                 (get_summary week_start_category_store) =
               [[("week_start"%string, VInt 3)]]) by reflexivity.
  assert (E2 : Summary.weekly_progress (get_summary unreadable_date_store) =
               [[("week_start"%string, VNull)]]) by reflexivity.
  repeat split; try assumption.
  - rewrite E1. intros (kept & _ & HF).
    inversion HF as [|w row ks rs [Hw _] _]; subst.
    simpl in Hw. discriminate.
  - rewrite E2. intros (kept & _ & HF).
    inversion HF as [|w row ks rs [Hw _] _]; subst.
    simpl in Hw. discriminate.
Qed.

(** ** The current week *)

(** On texts of valid dates, the BINARY collation is the order of time. *)
Lemma valid_text_compare (s1 s2 : string) :
  is_valid_date_text s1 = true -> is_valid_date_text s2 = true ->
  String.compare s1 s2 = (text_key s1 ?= text_key s2).
Proof.
  unfold is_valid_date_text, text_key, date_days.
  destruct (parse_yyyy_mm_dd s1) as [c1|] eqn:P1; [|discriminate].
  destruct (parse_yyyy_mm_dd s2) as [c2|] eqn:P2; [|discriminate].
  intros V1 V2. simpl.
  apply valid_date_month_day in V1 as [M1 Y1], V2 as [M2 Y2].
  apply parse_inv in P1 as [-> (_ & R1)]; [|lia].
  apply parse_inv in P2 as [-> (_ & R2)]; [|lia].
  rewrite format_date_compare by lia.
  symmetry. now apply days_from_civil_compare.
Qed.

(** [MAX(date)] over texts of valid dates is the latest of them. *)
Lemma sql_max_text_latest (l : list string) :
  Forall (fun s => is_valid_date_text s = true) l -> l <> [] ->
  exists m, sql_max_text l = Some m /\ In m l /\
            forall s, In s l -> text_key s <= text_key m.
Proof.
  induction l as [|s t IH]; intros HV Hne; [contradiction|].
  apply Forall_cons_iff in HV as [Vs Vt].
  destruct t as [|s' t'].
  - exists s. simpl. repeat split; [now left|].
    intros x [<-|[]]. lia.
  - destruct (IH Vt) as (m & Em & Hm & Hmax); [discriminate|].
    change (sql_max_text (s :: s' :: t')) with
      (match sql_max_text (s' :: t') with
       | None => Some s
       | Some m => if String.ltb m s then Some s else Some m
       end).
    rewrite Em. unfold String.ltb.
    assert (Vm : is_valid_date_text m = true).
    { rewrite Forall_forall in Vt. now apply Vt. }
    rewrite (valid_text_compare m s Vm Vs).
    destruct (Z.compare_spec (text_key m) (text_key s)) as [E|E|E].
    + exists m. repeat split; [now right|].
      intros x [<-|Hx]; [lia | now apply Hmax].
    + exists s. repeat split; [now left|].
      intros x [<-|Hx]; [lia|]. specialize (Hmax x Hx). lia.
    + exists m. repeat split; [now right|].
      intros x [<-|Hx]; [lia | now apply Hmax].
Qed.

Lemma truthy_format_date (c : civil) : truthy (Some (format_date c)) = true.
Proof. unfold format_date. now destruct (year c <? 0). Qed.

Lemma sql_sum_or_zero (l : list Z) :
  match sql_sum l with
  | Some n => if n =? 0 then 0 else n
  | None => 0
  end = sum_Z l.
Proof.
  destruct l as [|x t]; [reflexivity|]. cbn [sql_sum].
  destruct (sum_Z (x :: t) =? 0) eqn:E; [|reflexivity].
  apply Z.eqb_eq in E. now rewrite E.
Qed.

(** [round_half_even] depends on the value of the rational only. *)
Lemma round_half_even_Qeq (x y : Q) :
  (x == y)%Q -> round_half_even x = round_half_even y.
Proof.
  intros E. unfold round_half_even.
  rewrite (Qfloor_comp _ _ E).
  assert (C : ((x - inject_Z (Qfloor y)) ?= (1 # 2))%Q =
              ((y - inject_Z (Qfloor y)) ?= (1 # 2))%Q).
  { apply Qcompare_comp; [now rewrite E | reflexivity]. }
  now rewrite C.
Qed.

(** The rounded integer is within 1/2 of the rational. *)
Lemma round_half_even_cases (a : Z) (b : positive) :
  let r := round_half_even (a # b) in
  2 * Z.abs (r * Z.pos b - a) <= Z.pos b.
Proof.
  unfold round_half_even. cbv zeta. unfold Qfloor.
  set (f := a / Z.pos b).
  assert (Hf : Z.pos b * f <= a < Z.pos b * f + Z.pos b) by (subst f; div_lia).
  unfold Qcompare, Qminus, Qplus, Qopp, inject_Z. cbn [Qnum Qden].
  rewrite Pos.mul_1_r.
  destruct (Z.compare_spec ((a * 1 + - f * Z.pos b) * 2) (1 * Z.pos b))
    as [C|C|C]; [destruct (Z.even f)| |]; lia.
Qed.

(** An integer strictly within 1/2 of the rational is the rounded one. *)
Lemma round_half_even_unique (a : Z) (b : positive) (k : Z) :
  2 * Z.abs (k * Z.pos b - a) < Z.pos b -> round_half_even (a # b) = k.
Proof.
  intros H. unfold round_half_even. unfold Qfloor.
  set (f := a / Z.pos b).
  assert (Hf : Z.pos b * f <= a < Z.pos b * f + Z.pos b) by (subst f; div_lia).
  unfold Qcompare, Qminus, Qplus, Qopp, inject_Z. cbn [Qnum Qden].
  rewrite Pos.mul_1_r.
  destruct (Z.compare_spec ((a * 1 + - f * Z.pos b) * 2) (1 * Z.pos b))
    as [C|C|C]; [destruct (Z.even f)| |]; nia.
Qed.

(** The rounded integer is a nearest one, and the even one at a tie. *)
Lemma round_half_even_spec (y : Q) :
  (Qabs (inject_Z (round_half_even y) - y) <= 1 # 2)%Q /\
  ((Qabs (inject_Z (round_half_even y) - y) == 1 # 2)%Q ->
   Z.even (round_half_even y) = true).
Proof.
  destruct y as [a b].
  unfold round_half_even. cbv zeta. unfold Qfloor.
  set (f := a / Z.pos b).
  assert (Hf : Z.pos b * f <= a < Z.pos b * f + Z.pos b) by (subst f; div_lia).
  assert (Hodd : Z.even f = false -> Z.even (f + 1) = true).
  { intros H. rewrite Z.add_1_r, Z.even_succ, <- Z.negb_even, H. reflexivity. }
  unfold Qcompare, Qabs, Qle, Qeq, Qminus, Qplus, Qopp, inject_Z.
  cbn [Qnum Qden]. rewrite !Pos.mul_1_l, !Pos.mul_1_r.
  destruct (Z.compare_spec ((a * 1 + - f * Z.pos b) * 2) (1 * Z.pos b))
    as [C|C|C].
  - destruct (Z.even f) eqn:Ev; cbn [Qnum Qden]; split; try lia.
    + intros _. exact Ev.
    + intros _. now apply Hodd.
  - cbn [Qnum Qden]. split; lia.
  - cbn [Qnum Qden]. split; lia.
Qed.

(** A positive rational below [2^N] has its exponent below [N]. *)
Lemma floor_log2_lt (a : Z) (b : positive) (N : Z) :
  0 < a -> 0 <= N -> a < 2 ^ N * Z.pos b -> floor_log2 (a # b) < N.
Proof.
  intros Ha HN Hlt. unfold floor_log2. cbn [Qnum Qden].
  set (e0 := Z.log2 a - Z.log2 (Z.pos b)).
  assert (He0 : e0 <= N).
  { assert (Hb : Z.pos b < 2 ^ (Z.log2 (Z.pos b) + 1)).
    { pose proof (Z.log2_spec (Z.pos b) eq_refl) as [_ H].
      now rewrite <- Z.add_1_r in H. }
    pose proof (Z.log2_nonneg (Z.pos b)) as Hlb.
    assert (Hlt' : a < 2 ^ (N + Z.log2 (Z.pos b) + 1)).
    { replace (N + Z.log2 (Z.pos b) + 1) with (N + (Z.log2 (Z.pos b) + 1)) by lia.
      rewrite Z.pow_add_r by lia.
      assert (0 < 2 ^ N) by (apply Z.pow_pos_nonneg; lia). nia. }
    apply Z.log2_lt_pow2 in Hlt'; [|exact Ha]. subst e0. lia. }
  destruct (Qle_bool (pow2 e0) (a # b)) eqn:E; [|lia].
  destruct (Z.eq_dec e0 N) as [EN|]; [|lia]. exfalso.
  apply Qle_bool_iff in E. unfold pow2 in E.
  replace (0 <=? e0) with true in E by (symmetry; apply Z.leb_le; lia).
  unfold Qle, inject_Z in E. cbn [Qnum Qden] in E. rewrite EN in E. lia.
Qed.

(** No total of minutes is halfway between two hundredths of an hour, so
    the rounded value is the one nearest hundredth whatever the tie rule:
    [k / 100] with [|k/100 - m/60| <= 1/300]. *)
Lemma hundredths_of_sixtieths (m : Z) :
  Z.abs (3 * round_half_even (inject_Z m / inject_Z 60 * inject_Z 100)
         - 5 * m) <= 1.
Proof.
  unfold round_half_even.
  assert (E : (inject_Z m / inject_Z 60 * inject_Z 100 =
               (m * 1 * 100) # 60)%Q) by reflexivity.
  rewrite E. cbv zeta. unfold Qfloor.
  set (f := (m * 1 * 100) / Z.pos 60).
  assert (Hf : 60 * f <= 100 * m < 60 * f + 60) by (subst f; div_lia).
  unfold Qcompare, Qminus, Qplus, Qopp, inject_Z. cbn [Qnum Qden].
  destruct (Z.compare_spec
              ((m * 1 * 100 * Z.pos 1 + - f * Z.pos 60) * Z.pos 2)
              (1 * Z.pos (60 * 1))) as [C|C|C]; lia.
Qed.

(** Up to 10^15 minutes the double [m / 60] is within 2^-10 of the exact
    quotient, which is at least 1/600 away from every tie between two
    hundredths: rounding the double to two decimals gives the hundredth
    nearest to the exact quotient. *)
Lemma truediv_60_keeps_hundredths (m : Z) :
  Z.abs m <= 10 ^ 15 ->
  round_half_even (truediv m 60 * inject_Z 100) =
  round_half_even (inject_Z m / inject_Z 60 * inject_Z 100).
Proof.
  intros Hm. change (10 ^ 15) with 1000000000000000 in Hm.
  destruct (Z.eq_dec m 0) as [->|Hnz]; [reflexivity|].
  set (k := round_half_even (inject_Z m / inject_Z 60 * inject_Z 100)).
  assert (Hk : Z.abs (3 * k - 5 * m) <= 1) by apply hundredths_of_sixtieths.
  clearbody k.
  unfold truediv, binary64.
  assert (Eq : (inject_Z m / inject_Z 60 = (m * 1) # 60)%Q) by reflexivity.
  rewrite Eq.
  replace (Qeq_bool ((m * 1) # 60) 0) with false.
  2:{ symmetry. apply Bool.not_true_is_false. intros H.
      apply Qeq_bool_iff in H. unfold Qeq in H. simpl in H. lia. }
  cbv zeta.
  set (E := Z.max (floor_log2 (Qabs ((m * 1) # 60))) (-1022)).
  assert (HE : -1022 <= E <= 43).
  { subst E.
    assert (floor_log2 (Qabs ((m * 1) # 60)) < 44).
    { unfold Qabs. apply floor_log2_lt; [lia | lia |].
      change (2 ^ 44) with 17592186044416. lia. }
    lia. }
  clearbody E.
  unfold pow2.
  replace (0 <=? E - 52) with false by (symmetry; apply Z.leb_gt; lia).
  set (Pp := Z.to_pos (2 ^ (- (E - 52)))).
  assert (HP : 512 <= Z.pos Pp).
  { subst Pp. rewrite Z2Pos.id by (apply Z.pow_pos_nonneg; lia).
    change 512 with (2 ^ 9). apply Z.pow_le_mono_r; lia. }
  clearbody Pp.
  set (n := round_half_even (((m * 1) # 60) / (1 # Pp))).
  assert (Hn : 2 * Z.abs (n * 60 - m * Z.pos Pp) <= 60).
  { subst n. rewrite (round_half_even_Qeq _ ((m * Z.pos Pp) # 60)).
    - apply (round_half_even_cases (m * Z.pos Pp) 60).
    - unfold Qeq, Qdiv, Qmult, Qinv. cbn [Qnum Qden].
      rewrite !Pos2Z.inj_mul. lia. }
  clearbody n.
  rewrite (round_half_even_Qeq _ ((n * 100) # Pp)).
  - apply round_half_even_unique.
    assert (H3 : - Z.pos Pp <= 3 * (k * Z.pos Pp) - 5 * (m * Z.pos Pp)
                 <= Z.pos Pp) by nia.
    lia.
  - rewrite Qred_correct. unfold Qeq, Qmult, inject_Z. cbn [Qnum Qden].
    rewrite !Pos2Z.inj_mul. lia.
Qed.

(** The bound matters.  At 10^16 minutes the double [m / 60] is
    166666666666666.65625: it rounds to the hundredth ...66.66 and
    [round] returns that same double, while the exact quotient
    166666666666666.666... is nearest to ...66.67. *)
Example hours_of_10_to_16_minutes :
  truediv (10 ^ 16) 60 = (5333333333333333 # 32)%Q /\
  round_half_even (truediv (10 ^ 16) 60 * inject_Z 100) =
    16666666666666666 /\
  round_2 (truediv (10 ^ 16) 60) = (5333333333333333 # 32)%Q /\
  round_half_even (inject_Z (10 ^ 16) / inject_Z 60 * inject_Z 100) =
    16666666666666667.
Proof. repeat split; vm_compute; reflexivity. Qed.

(** One minute is 0.02 hours: the double nearest to 2/100. *)
Example hours_of_one_minute :
  round_2 (truediv 1 60) = binary64 (2 # 100) /\
  round_2 (truediv 1 60) = (5764607523034235 # 288230376151711744)%Q.
Proof. split; vm_compute; reflexivity. Qed.

Lemma date_not_after_key (s s' : string) :
  is_valid_date_text s = true -> is_valid_date_text s' = true ->
  text_key s <= text_key s' -> date_not_after s s'.
Proof.
  unfold is_valid_date_text, text_key, date_not_after, date_days.
  destruct (parse_yyyy_mm_dd s); [|discriminate].
  destruct (parse_yyyy_mm_dd s'); [|discriminate]. simpl. tauto.
Qed.

(** C5: on a store with at least one activity, all dates valid:
    [current_week_start] is the bucket of an activity whose date no other
    activity's date comes after (it depends on the data only, [get_summary]
    takes no clock), and [current_week_total_hours] is Python's
    [round(m / 60, 2)] on floats, [m] the sum of the minutes of the
    activities in that bucket: the double nearest to [k / 100], where
    [k / 100] is the double [m / 60] rounded to two decimals, a tie going
    to the even hundredth.  Up to 10^15 minutes [k / 100] is also the one
    hundredth within 1/300 of the exact quotient: no such total is at a
    tie, so the tie rule does not show there. *)
Theorem current_week_of_latest_date (db : Store) :
  forallb valid_activity_date (activities db) = true ->
  (0 < List.length (activities db))%nat ->
  exists latest,
    In latest (activities db) /\
    (forall a, In a (activities db) ->
               date_not_after (Activity.date a) (Activity.date latest)) /\
    Summary.current_week_start (get_summary db) =
      activity_week_start latest /\
    Summary.current_week_start (get_summary db) <> None /\
    Summary.current_week_total_hours (get_summary db) =
      round_2 (truediv (minutes_of_week
                          (Summary.current_week_start (get_summary db))
                          (activities db)) 60) /\
    (exists k,
       rounds_to_hundredth
         (truediv (minutes_of_week
                     (Summary.current_week_start (get_summary db))
                     (activities db)) 60) k /\
       Summary.current_week_total_hours (get_summary db) =
         binary64 (inject_Z k / inject_Z 100)) /\
    (Z.abs (minutes_of_week (Summary.current_week_start (get_summary db))
                            (activities db)) <= 10 ^ 15 ->
     exists k,
       Z.abs (3 * k - 5 * minutes_of_week
                            (Summary.current_week_start (get_summary db))
                            (activities db)) <= 1 /\
       Summary.current_week_total_hours (get_summary db) =
         binary64 (inject_Z k / inject_Z 100)).
Proof.
  intros Hvalid Hlen.
  cbn [get_summary Summary.current_week_start
       Summary.current_week_total_hours].
  set (rows := activities db) in *.
  rewrite forallb_forall in Hvalid.
  assert (HV : Forall (fun s => is_valid_date_text s = true)
                      (map Activity.date rows)).
  { apply Forall_forall. intros s Hs. apply in_map_iff in Hs.
    destruct Hs as (a & <- & Ha). now apply Hvalid. }
  assert (Hne : map Activity.date rows <> []).
  { destruct rows; [simpl in Hlen; lia | discriminate]. }
  destruct (sql_max_text_latest _ HV Hne) as (m & Em & Hm & Hmax).
  apply in_map_iff in Hm. destruct Hm as (latest & <- & Hlatest).
  assert (Ecws : current_week_start_of rows = activity_week_start latest).
  { unfold current_week_start_of. now rewrite Em. }
  destruct (activity_is_week latest (Hvalid latest Hlatest))
    as (z & Rz & Ez).
  assert (Emin : current_week_minutes_of rows =
                 minutes_of_week (current_week_start_of rows) rows).
  { unfold current_week_minutes_of, minutes_of_week.
    rewrite Ecws, Ez, truthy_format_date, sql_sum_or_zero.
    do 2 f_equal. apply filter_ext. intros a.
    destruct (sql_eq _ _) eqn:E1;
      destruct (option_string_eqb _ _) eqn:E2; try reflexivity.
    - apply sql_eq_true in E1. rewrite E1 in E2.
      now rewrite (proj2 (option_string_eqb_spec _ _) eq_refl) in E2.
    - apply option_string_eqb_spec in E2. rewrite E2 in E1.
      simpl in E1. now rewrite String.eqb_refl in E1. }
  exists latest.
  split; [exact Hlatest|].
  split.
  { intros a Ha. apply date_not_after_key.
    - now apply Hvalid.
    - now apply Hvalid.
    - apply Hmax. now apply in_map. }
  split; [exact Ecws|].
  split; [rewrite Ecws, Ez; discriminate|].
  rewrite Emin. split; [reflexivity|].
  split.
  { eexists. split; [apply round_half_even_spec | reflexivity]. }
  intros Hbound.
  exists (round_half_even
            (inject_Z (minutes_of_week (current_week_start_of rows) rows)
             / inject_Z 60 * inject_Z 100)).
  split; [apply hundredths_of_sixtieths|].
  unfold round_2. now rewrite truediv_60_keeps_hundredths.
Qed.

Lemma current_week_of_latest_date_witness :
  Summary.current_week_start (get_summary scenario_store) =
    Some "2026-01-05"%string /\
  Summary.current_week_total_hours (get_summary scenario_store) = (5 # 4)%Q.
Proof.
  destruct (current_week_of_latest_date scenario_store eq_refl)
    as (latest & _ & _ & _ & _ & _ & _ & Hk).
  - simpl. lia.
  - destruct Hk as (k & Hk & Ek).
    + vm_compute. discriminate.
    + assert (EM : minutes_of_week
                     (Summary.current_week_start (get_summary scenario_store))
                     (activities scenario_store) = 75) by reflexivity.
      rewrite EM in Hk.
      assert (K : k = 125) by lia.
      rewrite K in Ek.
      split; [reflexivity | exact (eq_trans Ek eq_refl)].
Defined.

(** With no activity at all there is no current week and the total is 0. *)
Lemma summary_of_no_activities (db : Store) :
  activities db = [] ->
  Summary.current_week_start (get_summary db) = None /\
  Summary.current_week_total_hours (get_summary db) = 0%Q /\
  Summary.weekly_progress (get_summary db) = [].
Proof.
  intros H. unfold get_summary. rewrite H. repeat split; reflexivity.
Qed.

(** * Further properties of the endpoints *)

(** ** The BINARY collation is a total order *)

Lemma ascii_compare_refl (c : ascii) : Ascii.compare c c = Eq.
Proof. unfold Ascii.compare. apply N.compare_refl. Qed.

Lemma ascii_compare_lt_trans (a b c : ascii) :
  Ascii.compare a b = Lt -> Ascii.compare b c = Lt -> Ascii.compare a c = Lt.
Proof.
  unfold Ascii.compare. rewrite !N.compare_lt_iff. apply N.lt_trans.
Qed.

Lemma string_compare_refl (s : string) : String.compare s s = Eq.
Proof.
  induction s as [|c s IH]; simpl; [reflexivity|].
  now rewrite ascii_compare_refl.
Qed.

Lemma string_compare_lt_trans (a b c : string) :
  String.compare a b = Lt -> String.compare b c = Lt ->
  String.compare a c = Lt.
Proof.
  revert b c. induction a as [|x a IH]; intros [|y b] [|z c]; simpl;
    try discriminate; try reflexivity.
  destruct (Ascii.compare x y) eqn:Exy; try discriminate;
    destruct (Ascii.compare y z) eqn:Eyz; try discriminate; intros H1 H2.
  - apply Ascii.compare_eq_iff in Exy, Eyz. subst.
    rewrite ascii_compare_refl. now apply (IH b c).
  - apply Ascii.compare_eq_iff in Exy. subst. now rewrite Eyz.
  - apply Ascii.compare_eq_iff in Eyz. subst. now rewrite Exy.
  - now rewrite (ascii_compare_lt_trans x y z Exy Eyz).
Qed.

Lemma string_compare_gt_lt (a b : string) :
  String.compare a b = Gt <-> String.compare b a = Lt.
Proof.
  rewrite (String.compare_antisym a b).
  destruct (String.compare b a); simpl; split; congruence.
Qed.

Lemma string_leb_trans (a b c : string) :
  String.leb a b = true -> String.leb b c = true -> String.leb a c = true.
Proof.
  unfold String.leb.
  destruct (String.compare a b) eqn:Eab; try discriminate;
    destruct (String.compare b c) eqn:Ebc; try discriminate; intros _ _.
  - apply String.compare_eq_iff in Eab, Ebc. subst.
    now rewrite string_compare_refl.
  - apply String.compare_eq_iff in Eab. subst. now rewrite Ebc.
  - apply String.compare_eq_iff in Ebc. subst. now rewrite Eab.
  - now rewrite (string_compare_lt_trans a b c Eab Ebc).
Qed.

Lemma string_ltb_not_leb (a b : string) :
  String.ltb a b = true -> String.leb b a = false.
Proof.
  unfold String.ltb, String.leb. intros H.
  destruct (String.compare a b) eqn:E; try discriminate.
  apply string_compare_gt_lt in E. now rewrite E.
Qed.

(** ** Listings *)

Section SortedByLeb.
Context {A : Type} (leb : A -> A -> bool).
Hypothesis leb_total : forall a b, leb a b = true \/ leb b a = true.
Hypothesis leb_trans :
  forall a b c, leb a b = true -> leb b c = true -> leb a c = true.

Lemma insert_sorted_sorted (x : A) (l : list A) :
  StronglySorted (fun a b => leb a b = true) l ->
  StronglySorted (fun a b => leb a b = true) (insert_sorted leb x l).
Proof.
  induction l as [|y t IH]; simpl; intros HS.
  - repeat constructor.
  - apply StronglySorted_inv in HS as [HSt Hy].
    destruct (leb x y) eqn:E.
    + constructor; [now constructor|].
      constructor; [exact E|]. rewrite Forall_forall in *.
      intros z Hz. apply (leb_trans x y z E). now apply Hy.
    + constructor; [now apply IH|].
      rewrite Forall_forall in *. intros z Hz.
      apply (Permutation_in _ (insert_sorted_perm leb x t)) in Hz.
      destruct Hz as [<-|Hz]; [|now apply Hy].
      destruct (leb_total x y) as [H|H]; [congruence | exact H].
Qed.

Lemma order_by_sorted (l : list A) :
  StronglySorted (fun a b => leb a b = true) (order_by leb l).
Proof.
  induction l as [|x t IH]; simpl; [constructor|].
  now apply insert_sorted_sorted.
Qed.
End SortedByLeb.

Lemma StronglySorted_limit_offset {A : Type} (R : A -> A -> Prop)
  (limit offset : Z) (l : list A) :
  StronglySorted R l -> StronglySorted R (limit_offset limit offset l).
Proof.
  intros H. unfold limit_offset.
  assert (Hs : StronglySorted R (skipn (Z.to_nat offset) l)).
  { rewrite <- (firstn_skipn (Z.to_nat offset) l) in H.
    apply StronglySorted_app in H. tauto. }
  destruct (limit <? 0); [exact Hs|].
  apply (StronglySorted_firstn_skipn R _ _ Hs).
Qed.

(** The comparison of [ORDER BY date DESC, id DESC], for any row type. *)
Section NewestFirst.
Context {R : Type} (date : R -> string) (id : R -> Z) (leb : R -> R -> bool).
Hypothesis leb_eq :
  forall a b, leb a b = match String.compare (date b) (date a) with
                        | Lt => true
                        | Gt => false
                        | Eq => id b <=? id a
                        end.

Lemma newest_first_total (a b : R) : leb a b = true \/ leb b a = true.
Proof.
  rewrite !leb_eq. rewrite (String.compare_antisym (date a) (date b)).
  destruct (String.compare (date b) (date a)); cbn [CompOpp]; try tauto.
  destruct (Z.le_ge_cases (id b) (id a)); [left | right];
    now apply Z.leb_le.
Qed.

Lemma newest_first_trans (a b c : R) :
  leb a b = true -> leb b c = true -> leb a c = true.
Proof.
  rewrite !leb_eq.
  destruct (String.compare (date b) (date a)) eqn:Eba; try discriminate;
    destruct (String.compare (date c) (date b)) eqn:Ecb; try discriminate;
    intros H1 H2.
  - apply String.compare_eq_iff in Eba, Ecb. rewrite Ecb, Eba.
    rewrite string_compare_refl. apply Z.leb_le in H1, H2.
    apply Z.leb_le. lia.
  - apply String.compare_eq_iff in Eba. rewrite <- Eba. now rewrite Ecb.
  - apply String.compare_eq_iff in Ecb. rewrite Ecb. now rewrite Eba.
  - now rewrite (string_compare_lt_trans _ _ _ Ecb Eba).
Qed.

Lemma newest_first_spec (a b : R) :
  leb a b = true <->
  String.ltb (date b) (date a) = true \/
  (date a = date b /\ id b <= id a).
Proof.
  rewrite leb_eq. unfold String.ltb.
  destruct (String.compare (date b) (date a)) eqn:E.
  - apply String.compare_eq_iff in E. rewrite Z.leb_le. split.
    + intros H. right. split; [now symmetry | exact H].
    + intros [H|[_ H]]; [discriminate | exact H].
  - split; [now left | reflexivity].
  - split; [discriminate|]. intros [H|[H _]]; [discriminate|].
    rewrite H, string_compare_refl in E. discriminate.
Qed.

Lemma listing_sorted (limit offset : Z) (rows : list R) :
  StronglySorted
    (fun a b => String.ltb (date b) (date a) = true \/
                (date a = date b /\ id b <= id a))
    (limit_offset limit offset (order_by leb rows)).
Proof.
  apply StronglySorted_limit_offset.
  apply (StronglySorted_impl_In (fun a b => leb a b = true)).
  - intros a b _ _. apply newest_first_spec.
  - apply order_by_sorted; [apply newest_first_total|].
    apply newest_first_trans.
Qed.
End NewestFirst.

(** X1: every page of GET /activities and of GET /mistakes is in listing
    order, later dates first and, within a date, larger ids first; and the
    page asked with no limit and no offset is a rearrangement of all the
    rows that match (of the whole table, for mistakes): none lost, none
    twice. *)
Theorem listings_are_newest_first
  (limit offset : Z) (category start_date end_date : option string)
  (db : Store) :
  StronglySorted activity_listed_before
    (ActivitiesPage.activities
       (get_activities limit offset category start_date end_date db)) /\
  StronglySorted mistake_listed_before
    (MistakesPage.mistakes (get_mistakes limit offset db)) /\
  Permutation
    (ActivitiesPage.activities
       (get_activities (-1) 0 category start_date end_date db))
    (filter (matches category start_date end_date) (activities db)) /\
  Permutation (MistakesPage.mistakes (get_mistakes (-1) 0 db))
              (mistakes db).
Proof.
  unfold get_activities, get_mistakes.
  cbn [ActivitiesPage.activities MistakesPage.mistakes].
  rewrite sql_where_matches. repeat split.
  - apply (listing_sorted Activity.date Activity.id activity_newest_first).
    reflexivity.
  - apply (listing_sorted Mistake.date Mistake.id mistake_newest_first).
    reflexivity.
  - apply order_by_perm.
  - apply order_by_perm.
Qed.

Lemma firstn_app_skipn {A : Type} (n m : nat) (l : list A) :
  firstn n l ++ firstn m (skipn n l) = firstn (n + m) l.
Proof.
  revert l. induction n as [|n IH]; intros l; simpl; [reflexivity|].
  destruct l as [|x t]; simpl.
  - now rewrite firstn_nil.
  - now rewrite IH.
Qed.

Lemma limit_offset_tiles {A : Type} (limit limit' offset : Z) (l : list A) :
  0 <= limit -> 0 <= limit' -> 0 <= offset ->
  limit_offset limit offset l ++ limit_offset limit' (offset + limit) l =
  limit_offset (limit + limit') offset l.
Proof.
  intros H1 H2 H3. unfold limit_offset.
  replace (limit <? 0) with false by (symmetry; apply Z.ltb_ge; lia).
  replace (limit' <? 0) with false by (symmetry; apply Z.ltb_ge; lia).
  replace (limit + limit' <? 0) with false by (symmetry; apply Z.ltb_ge; lia).
  rewrite !Z2Nat.inj_add by lia.
  rewrite (Nat.add_comm (Z.to_nat offset) (Z.to_nat limit)).
  rewrite <- skipn_skipn. apply firstn_app_skipn.
Qed.

Lemma limit_offset_length {A : Type} (limit offset : Z) (l : list A) :
  0 <= limit ->
  Z.of_nat (List.length (limit_offset limit offset l)) <= limit /\
  (Z.of_nat (List.length l) <= offset -> limit_offset limit offset l = []).
Proof.
  intros H. unfold limit_offset.
  replace (limit <? 0) with false by (symmetry; apply Z.ltb_ge; lia).
  split.
  - rewrite length_firstn. lia.
  - intros Ho. rewrite skipn_all2 by lia. apply firstn_nil.
Qed.

(** X2: consecutive pages tile the listing.  For non-negative [limit],
    [limit'] and [offset], the page at [offset] followed by the page at
    [offset + limit] is the page of [limit + limit'] rows at [offset], for
    GET /activities under any filter and for GET /mistakes. *)
Theorem consecutive_pages_tile
  (limit limit' offset : Z) (category start_date end_date : option string)
  (db : Store) :
  0 <= limit -> 0 <= limit' -> 0 <= offset ->
  ActivitiesPage.activities
    (get_activities limit offset category start_date end_date db) ++
  ActivitiesPage.activities
    (get_activities limit' (offset + limit) category start_date end_date db)
  = ActivitiesPage.activities
      (get_activities (limit + limit') offset category start_date end_date
                      db) /\
  MistakesPage.mistakes (get_mistakes limit offset db) ++
  MistakesPage.mistakes (get_mistakes limit' (offset + limit) db) =
  MistakesPage.mistakes (get_mistakes (limit + limit') offset db).
Proof.
  intros H1 H2 H3. unfold get_activities, get_mistakes.
  cbn [ActivitiesPage.activities MistakesPage.mistakes].
  split; now apply limit_offset_tiles.
Qed.

Lemma consecutive_pages_tile_witness :
  ActivitiesPage.activities (get_activities 1 0 None None None scenario_store)
  ++ ActivitiesPage.activities
       (get_activities 1 1 None None None scenario_store) =
  [tactics_saturday; tactics_monday].
Proof.
  destruct (consecutive_pages_tile 1 1 0 None None None scenario_store)
    as [Ha _]; try lia.
  exact (eq_trans Ha eq_refl).
Defined.

Lemma limit_offset_count {A : Type} (limit offset : Z) (l : list A) :
  Z.of_nat (List.length (limit_offset limit offset l)) =
  let rest := Z.max 0 (Z.of_nat (List.length l) - Z.max 0 offset) in
  if limit <? 0 then rest else Z.min limit rest.
Proof.
  unfold limit_offset. cbv zeta.
  destruct (limit <? 0) eqn:E.
  - rewrite length_skipn. lia.
  - apply Z.ltb_ge in E. rewrite length_firstn, length_skipn. lia.
Qed.

(** X3: the size of a page, for GET /activities under any filter and for
    GET /mistakes, [limit] and [offset] being 64-bit integers.  With a
    non-negative [limit] a page has
    [min limit (total_count - offset)] rows (a negative [offset] counting
    as 0, and no rows when the difference is negative): never more than
    [limit], and none, with no error, when [offset] is at or past
    [total_count].  A negative [limit] is no limit at all: the listing
    asked from offset 0 is a rearrangement of all the rows that match, and
    the page at [offset] is that listing without its first [offset] rows. *)
Theorem page_bounds
  (limit offset : Z) (category start_date end_date : option string)
  (db : Store) :
  fits_int64 limit = true -> fits_int64 offset = true ->
  0 <= limit ->
  let page := get_activities limit offset category start_date end_date db in
  let mpage := get_mistakes limit offset db in
  Z.of_nat (List.length (ActivitiesPage.activities page)) =
    Z.min limit
          (Z.max 0 (ActivitiesPage.total_count page - Z.max 0 offset)) /\
  Z.of_nat (List.length (ActivitiesPage.activities page)) <= limit /\
  (ActivitiesPage.total_count page <= offset ->
   ActivitiesPage.activities page = []) /\
  Z.of_nat (List.length (MistakesPage.mistakes mpage)) =
    Z.min limit (Z.max 0 (MistakesPage.total_count mpage - Z.max 0 offset)) /\
  Z.of_nat (List.length (MistakesPage.mistakes mpage)) <= limit /\
  (MistakesPage.total_count mpage <= offset ->
   MistakesPage.mistakes mpage = []) /\
  (forall unlimited, fits_int64 unlimited = true -> unlimited < 0 ->
     let all :=
       get_activities unlimited 0 category start_date end_date db in
     let mall := get_mistakes unlimited 0 db in
     Permutation (ActivitiesPage.activities all)
                 (filter (matches category start_date end_date)
                         (activities db)) /\
     ActivitiesPage.activities
       (get_activities unlimited offset category start_date end_date db) =
     skipn (Z.to_nat offset) (ActivitiesPage.activities all) /\
     Permutation (MistakesPage.mistakes mall) (mistakes db) /\
     MistakesPage.mistakes (get_mistakes unlimited offset db) =
     skipn (Z.to_nat offset) (MistakesPage.mistakes mall)).
Proof.
  intros _ _ H. cbv zeta. unfold get_activities, get_mistakes.
  cbn [ActivitiesPage.activities ActivitiesPage.total_count
       MistakesPage.mistakes MistakesPage.total_count].
  assert (Hge : (limit <? 0) = false) by (apply Z.ltb_ge; lia).
  split; [|split; [|split; [|split; [|split; [|split]]]]].
  - rewrite limit_offset_count, Hge. cbv zeta. now rewrite length_order_by.
  - now apply limit_offset_length.
  - intros Ho. apply limit_offset_length; [exact H|].
    now rewrite length_order_by.
  - rewrite limit_offset_count, Hge. cbv zeta. now rewrite length_order_by.
  - now apply limit_offset_length.
  - intros Ho. apply limit_offset_length; [exact H|].
    now rewrite length_order_by.
  - intros u _ Hu. unfold limit_offset.
    replace (u <? 0) with true by (symmetry; apply Z.ltb_lt; lia).
    change (Z.to_nat 0) with 0%nat. cbn [skipn].
    rewrite sql_where_matches.
    split; [apply order_by_perm|].
    split; [reflexivity|].
    split; [apply order_by_perm | reflexivity].
Qed.

Lemma page_bounds_witness :
  Z.of_nat (List.length
              (ActivitiesPage.activities
                 (get_activities 1 0 None None None scenario_store))) = 1 /\
  ActivitiesPage.activities
    (get_activities 1 2 None None None scenario_store) = [] /\
  MistakesPage.mistakes (get_mistakes 1 1 scenario_store) = [] /\
  MistakesPage.mistakes (get_mistakes (-1) 0 scenario_store) =
    [blunder_mistake].
Proof.
  destruct (page_bounds 1 0 None None None scenario_store eq_refl eq_refl)
    as (H1 & _ & _ & _ & _ & _ & Hall); [lia|].
  destruct (page_bounds 1 2 None None None scenario_store eq_refl eq_refl)
    as (_ & _ & H2 & _); [lia|].
  destruct (page_bounds 1 1 None None None scenario_store eq_refl eq_refl)
    as (_ & _ & _ & _ & _ & H3 & _); [lia|].
  destruct (Hall (-1) eq_refl) as (_ & _ & _ & H4); [lia|].
  split; [exact (eq_trans H1 eq_refl)|].
  split; [apply H2; simpl; lia|].
  split; [apply H3; simpl; lia | exact (eq_trans H4 eq_refl)].
Defined.

(** X4: a date range given upside down, [end_date] before [start_date] in
    text order, matches nothing: [total_count] is 0 and every page is
    empty, whatever the category and the page. *)
Theorem inverted_date_range_matches_nothing
  (limit offset : Z) (category : option string) (start_date end_date : string)
  (db : Store) :
  truthy (Some end_date) = true ->
  String.ltb end_date start_date = true ->
  let page :=
    get_activities limit offset category (Some start_date) (Some end_date)
                   db in
  ActivitiesPage.total_count page = 0 /\ ActivitiesPage.activities page = [].
Proof.
  intros He Hlt. cbv zeta. unfold get_activities.
  cbn [ActivitiesPage.total_count ActivitiesPage.activities].
  rewrite sql_where_matches.
  assert (Hnone : filter (matches category (Some start_date) (Some end_date))
                         (activities db) = []).
  { induction (activities db) as [|a t IH]; [reflexivity|].
    cbn [filter]. rewrite IH.
    replace (matches category (Some start_date) (Some end_date) a)
      with false; [reflexivity|].
    symmetry. apply not_true_is_false. unfold matches. intros H.
    destruct end_date as [|e1 e2]; [discriminate|].
    destruct start_date as [|s1 s2]; [discriminate|].
    apply andb_prop in H as [H H3]. apply andb_prop in H as [_ H2].
    pose proof (string_leb_trans _ _ _ H2 H3) as Hle.
    now rewrite (string_ltb_not_leb _ _ Hlt) in Hle. }
  rewrite Hnone. split; [reflexivity|].
  unfold limit_offset. cbn [order_by fold_right]. rewrite skipn_nil.
  destruct (limit <? 0); [reflexivity | apply firstn_nil].
Qed.

Lemma inverted_date_range_witness :
  ActivitiesPage.total_count
    (get_activities 20 0 None (Some "2026-01-10"%string)
                    (Some "2026-01-05"%string) scenario_store) = 0.
Proof.
  exact (proj1 (inverted_date_range_matches_nothing
                  20 0 None "2026-01-10" "2026-01-05" scenario_store
                  eq_refl eq_refl)).
Defined.

(** ** Writes *)

(** X5: POST /mistakes stores every body whose integers ([opponent_rating]
    and [move_number], where given) are 64-bit, on a table that has an id
    left.  The answer is the new row, with the thirteen submitted fields
    verbatim (NULLs included), the timestamp of the store, and an id above
    the sequence value and above every id of the table; the table is the
    old one with that row appended and the activities are untouched. *)
Theorem create_mistake_stores_every_body
  (now : string) (mistake : MistakeCreate.t) (db : Store) :
  fits_int64_or_null (MistakeCreate.opponent_rating mistake) = true ->
  fits_int64_or_null (MistakeCreate.move_number mistake) = true ->
  fits_int64 (max_id Mistake.id (mistakes_seq db) (mistakes db) + 1) = true ->
  exists row,
    create_mistake now mistake db =
    (Ok row,
     mkStore (activities db) (activities_seq db)
             (mistakes db ++ [row]) (Mistake.id row)) /\
    (Mistake.date row, Mistake.game_type row, Mistake.time_control row,
     Mistake.opponent_name row, Mistake.opponent_rating row,
     Mistake.result row, Mistake.move_number row) =
    (MistakeCreate.date mistake, MistakeCreate.game_type mistake,
     MistakeCreate.time_control mistake, MistakeCreate.opponent_name mistake,
     MistakeCreate.opponent_rating mistake, MistakeCreate.result mistake,
     MistakeCreate.move_number mistake) /\
    (Mistake.mistake_category row, Mistake.cause row, Mistake.fix_ row,
     Mistake.training row, Mistake.url row, Mistake.annotations row) =
    (MistakeCreate.mistake_category mistake, MistakeCreate.cause mistake,
     MistakeCreate.fix_ mistake, MistakeCreate.training mistake,
     MistakeCreate.url mistake, MistakeCreate.annotations mistake) /\
    Mistake.created_at row = now /\
    mistakes_seq db < Mistake.id row /\
    Forall (fun r => Mistake.id r < Mistake.id row) (mistakes db).
Proof.
  intros _ _ _.
  unfold create_mistake.
  set (mistake_id := max_id Mistake.id (mistakes_seq db) (mistakes db) + 1).
  set (row := Mistake.Build mistake_id _ _ _ _ _ _ _ _ _ _ _ _ _ now).
  destruct (max_id_bound Mistake.id (mistakes_seq db) (mistakes db))
    as [Hseq Hrows].
  assert (Hlt : forall r, In r (mistakes db) ->
                          Mistake.id r < Mistake.id row).
  { intros r Hr. specialize (Hrows r Hr). subst row mistake_id. simpl. lia. }
  exists row. cbn [mistakes].
  change mistake_id with (Mistake.id row) at 1.
  rewrite (find_fresh Mistake.id (mistakes db) row Hlt).
  repeat split; try reflexivity.
  - subst row mistake_id. simpl. lia.
  - now apply Forall_forall.
Qed.

Lemma create_mistake_stores_every_body_witness :
  exists row,
    create_mistake "2026-01-08 21:00:00" blunder_body scenario_store =
    (Ok row,
     mkStore [tactics_monday; tactics_saturday] 2
             [blunder_mistake; row] (Mistake.id row)) /\
    Mistake.opponent_rating row = Some 1480 /\
    Mistake.cause row = None /\
    1 < Mistake.id row.
Proof.
  destruct (create_mistake_stores_every_body
              "2026-01-08 21:00:00" blunder_body scenario_store
              eq_refl eq_refl eq_refl)
    as (row & E & H1 & H2 & _ & Hid & _).
  exists row.
  split; [exact E|].
  split; [exact (f_equal (fun t => snd (fst (fst t))) H1)|].
  split; [exact (f_equal (fun t => snd (fst (fst (fst (fst t))))) H2)|].
  exact Hid.
Defined.

Lemma create_activity_eq (now : string) (activity : ActivityCreate.t)
  (db : Store) :
  let row :=
    Activity.Build
      (max_id Activity.id (activities_seq db) (activities db) + 1)
      (ActivityCreate.date activity) (ActivityCreate.week activity)
      (ActivityCreate.category activity) (ActivityCreate.minutes activity)
      (ActivityCreate.details activity) now in
  create_activity now activity db =
  (Ok row,
   mkStore (activities db ++ [row]) (Activity.id row)
           (mistakes db) (mistakes_seq db)).
Proof.
  cbv zeta. unfold create_activity. cbn [activities].
  set (row := Activity.Build _ _ _ _ _ _ now).
  change (max_id Activity.id (activities_seq db) (activities db) + 1)
    with (Activity.id row).
  rewrite (find_fresh Activity.id (activities db) row); [reflexivity|].
  intros r Hr.
  pose proof (proj2 (max_id_bound Activity.id (activities_seq db)
                                  (activities db)) r Hr).
  subst row. simpl. lia.
Qed.

Lemma create_mistake_eq (now : string) (mistake : MistakeCreate.t)
  (db : Store) :
  let row :=
    Mistake.Build
      (max_id Mistake.id (mistakes_seq db) (mistakes db) + 1)
      (MistakeCreate.date mistake) (MistakeCreate.game_type mistake)
      (MistakeCreate.time_control mistake) (MistakeCreate.opponent_name mistake)
      (MistakeCreate.opponent_rating mistake) (MistakeCreate.result mistake)
      (MistakeCreate.move_number mistake)
      (MistakeCreate.mistake_category mistake) (MistakeCreate.cause mistake)
      (MistakeCreate.fix_ mistake) (MistakeCreate.training mistake)
      (MistakeCreate.url mistake) (MistakeCreate.annotations mistake) now in
  create_mistake now mistake db =
  (Ok row,
   mkStore (activities db) (activities_seq db)
           (mistakes db ++ [row]) (Mistake.id row)).
Proof.
  cbv zeta. unfold create_mistake. cbn [mistakes].
  set (row := Mistake.Build _ _ _ _ _ _ _ _ _ _ _ _ _ _ now).
  change (max_id Mistake.id (mistakes_seq db) (mistakes db) + 1)
    with (Mistake.id row).
  rewrite (find_fresh Mistake.id (mistakes db) row); [reflexivity|].
  intros r Hr.
  pose proof (proj2 (max_id_bound Mistake.id (mistakes_seq db)
                                  (mistakes db)) r Hr).
  subst row. simpl. lia.
Qed.

Lemma filter_all {A : Type} (f : A -> bool) (l : list A) :
  forallb f l = true -> filter f l = l.
Proof.
  induction l as [|x t IH]; simpl; [reflexivity|].
  intros H. apply andb_prop in H as [-> Ht]. f_equal. now apply IH.
Qed.

Lemma delete_fresh {R : Type} (id : R -> Z) (rows : list R) (row : R) :
  (forall r, In r rows -> id r < id row) ->
  filter (fun r => negb (id r =? id row)) (rows ++ [row]) = rows.
Proof.
  intros H. rewrite filter_app. simpl. rewrite Z.eqb_refl. simpl.
  rewrite app_nil_r. apply filter_all, forallb_forall.
  intros r Hr. apply negb_true_iff, Z.eqb_neq. specialize (H r Hr). lia.
Qed.

(** X6: creating a row and then deleting the returned id gives back the
    table as it was.  The delete answers with its success message, the rows
    of the table are exactly the rows before the insert, in order, and only
    the sequence value has moved on; for activities and for mistakes, on
    every store. *)
Theorem create_then_delete_restores_rows
  (now : string) (activity : ActivityCreate.t) (mistake : MistakeCreate.t)
  (db : Store) :
  (exists row db1,
      create_activity now activity db = (Ok row, db1) /\
      delete_activity (Activity.id row) db1 =
      (Ok "Activity deleted"%string,
       mkStore (activities db) (Activity.id row)
               (mistakes db) (mistakes_seq db)) /\
      activities_seq db < Activity.id row) /\
  (exists row db1,
      create_mistake now mistake db = (Ok row, db1) /\
      delete_mistake (Mistake.id row) db1 =
      (Ok "Mistake deleted"%string,
       mkStore (activities db) (activities_seq db)
               (mistakes db) (Mistake.id row)) /\
      mistakes_seq db < Mistake.id row).
Proof.
  split.
  - pose proof (create_activity_eq now activity db) as E. cbv zeta in E.
    set (row := Activity.Build _ _ _ _ _ _ now) in E.
    destruct (max_id_bound Activity.id (activities_seq db) (activities db))
      as [Hseq Hrows].
    assert (Hlt : forall r, In r (activities db) ->
                            Activity.id r < Activity.id row).
    { intros r Hr. specialize (Hrows r Hr). subst row. simpl. lia. }
    eexists row, _. split; [exact E|]. split; [|subst row; simpl; lia].
    unfold delete_activity. cbn [activities activities_seq mistakes
                                 mistakes_seq].
    rewrite (delete_fresh Activity.id (activities db) row Hlt).
    rewrite length_app. cbn [List.length].
    replace (List.length (activities db) + 1 - List.length (activities db))%nat
      with 1%nat by lia.
    reflexivity.
  - pose proof (create_mistake_eq now mistake db) as E. cbv zeta in E.
    set (row := Mistake.Build _ _ _ _ _ _ _ _ _ _ _ _ _ _ now) in E.
    destruct (max_id_bound Mistake.id (mistakes_seq db) (mistakes db))
      as [Hseq Hrows].
    assert (Hlt : forall r, In r (mistakes db) ->
                            Mistake.id r < Mistake.id row).
    { intros r Hr. specialize (Hrows r Hr). subst row. simpl. lia. }
    eexists row, _. split; [exact E|]. split; [|subst row; simpl; lia].
    unfold delete_mistake. cbn [activities activities_seq mistakes
                                mistakes_seq].
    rewrite (delete_fresh Mistake.id (mistakes db) row Hlt).
    rewrite length_app. cbn [List.length].
    replace (List.length (mistakes db) + 1 - List.length (mistakes db))%nat
      with 1%nat by lia.
    reflexivity.
Qed.

(** X7: after POST /activities, the [total_count] of a filtered listing has
    grown by one when the new row matches the filter and not at all
    otherwise, and the unfiltered listing without limit holds the new row;
    after POST /mistakes the [total_count] of GET /mistakes has grown by
    one. *)
Theorem create_then_list
  (now : string) (activity : ActivityCreate.t) (mistake : MistakeCreate.t)
  (limit offset : Z) (category start_date end_date : option string)
  (db : Store) :
  (exists row db1,
      create_activity now activity db = (Ok row, db1) /\
      ActivitiesPage.total_count
        (get_activities limit offset category start_date end_date db1) =
      ActivitiesPage.total_count
        (get_activities limit offset category start_date end_date db)
      + (if matches category start_date end_date row then 1 else 0) /\
      In row (ActivitiesPage.activities
                (get_activities (-1) 0 None None None db1))) /\
  (exists row db1,
      create_mistake now mistake db = (Ok row, db1) /\
      MistakesPage.total_count (get_mistakes limit offset db1) =
      MistakesPage.total_count (get_mistakes limit offset db) + 1 /\
      In row (MistakesPage.mistakes (get_mistakes (-1) 0 db1))).
Proof.
  split.
  - pose proof (create_activity_eq now activity db) as E. cbv zeta in E.
    set (row := Activity.Build _ _ _ _ _ _ now) in E.
    eexists row, _. split; [exact E|].
    unfold get_activities.
    cbn [ActivitiesPage.total_count ActivitiesPage.activities activities].
    rewrite !sql_where_matches, filter_app, length_app. split.
    + cbn [filter].
      destruct (matches category start_date end_date row);
        cbn [List.length]; lia.
    + unfold limit_offset. cbn [Z.ltb Z.compare Z.to_nat skipn].
      apply In_order_by, filter_In. split.
      * apply in_or_app. right. now left.
      * reflexivity.
  - pose proof (create_mistake_eq now mistake db) as E. cbv zeta in E.
    set (row := Mistake.Build _ _ _ _ _ _ _ _ _ _ _ _ _ _ now) in E.
    eexists row, _. split; [exact E|].
    unfold get_mistakes.
    cbn [MistakesPage.total_count MistakesPage.mistakes mistakes]. split.
    + rewrite length_app. cbn [List.length]. lia.
    + unfold limit_offset. cbn [Z.ltb Z.compare Z.to_nat skipn].
      apply In_order_by, in_or_app. right. now left.
Qed.

(** ** The id invariant *)

Lemma distinct_ids_NoDup (ids : list Z) :
  distinct_ids ids = true <-> NoDup ids.
Proof.
  induction ids as [|x t IH]; simpl.
  - split; [constructor | reflexivity].
  - rewrite andb_true_iff, negb_true_iff, IH, NoDup_cons_iff.
    assert (E : existsb (Z.eqb x) t = false <-> ~ In x t).
    { split.
      - intros H Hin. apply not_true_iff_false in H. apply H.
        apply existsb_exists. exists x. split; [exact Hin | apply Z.eqb_refl].
      - intros H. apply not_true_iff_false. intros Hex.
        apply existsb_exists in Hex as (y & Hy & E).
        apply Z.eqb_eq in E. now subst. }
    now rewrite E.
Qed.

Lemma ids_ok_spec {R : Type} (id : R -> Z) (seq : Z) (rows : list R) :
  ids_ok id seq rows = true <->
  NoDup (map id rows) /\ forall r, In r rows -> id r <= seq.
Proof.
  unfold ids_ok. rewrite andb_true_iff, distinct_ids_NoDup, forallb_forall.
  split; intros [H1 H2]; (split; [exact H1|]); intros r Hr.
  - now apply Z.leb_le, H2.
  - now apply Z.leb_le, H2.
Qed.

Lemma max_id_is_seq {R : Type} (id : R -> Z) (seq : Z) (rows : list R) :
  (forall r, In r rows -> id r <= seq) -> max_id id seq rows = seq.
Proof.
  unfold max_id. induction rows as [|r t IH]; simpl; intros H;
    [reflexivity|].
  rewrite IH by (intros r' Hr'; apply H; now right).
  specialize (H r (or_introl eq_refl)). lia.
Qed.

Lemma ids_ok_append {R : Type} (id : R -> Z) (seq : Z) (rows : list R)
  (row : R) :
  ids_ok id seq rows = true -> id row = max_id id seq rows + 1 ->
  ids_ok id (id row) (rows ++ [row]) = true.
Proof.
  rewrite !ids_ok_spec. intros [Hnd Hle] Hid.
  rewrite (max_id_is_seq id seq rows Hle) in Hid. split.
  - rewrite map_app. simpl. apply NoDup_rev in Hnd.
    rewrite <- (rev_involutive (map id rows ++ [id row])).
    apply NoDup_rev. rewrite rev_app_distr. simpl. constructor; [|exact Hnd].
    rewrite <- in_rev, in_map_iff. intros (r & E & Hr).
    specialize (Hle r Hr). lia.
  - intros r Hr. apply in_app_or in Hr as [Hr|[<-|[]]]; [|lia].
    specialize (Hle r Hr). lia.
Qed.

Lemma NoDup_map_filter {R : Type} (id : R -> Z) (f : R -> bool)
  (rows : list R) :
  NoDup (map id rows) -> NoDup (map id (filter f rows)).
Proof.
  induction rows as [|r t IH]; simpl; intros H; [constructor|].
  apply NoDup_cons_iff in H as [Hr Ht].
  destruct (f r); simpl; [|now apply IH].
  constructor; [|now apply IH].
  rewrite in_map_iff. intros (r' & E & Hr'). apply Hr.
  apply filter_In in Hr' as [Hr' _]. rewrite <- E. now apply in_map.
Qed.

Lemma ids_ok_filter {R : Type} (id : R -> Z) (seq : Z) (f : R -> bool)
  (rows : list R) :
  ids_ok id seq rows = true -> ids_ok id seq (filter f rows) = true.
Proof.
  rewrite !ids_ok_spec. intros [Hnd Hle]. split.
  - now apply NoDup_map_filter.
  - intros r Hr. apply filter_In in Hr as [Hr _]. now apply Hle.
Qed.

(** X8: the four writing endpoints keep the id invariant of the store.  If
    in both tables no id occurs twice and none is above the table's
    sequence value, the same holds after POST /activities, POST /mistakes,
    DELETE /activities/{id} and DELETE /mistakes/{id}, whatever they were
    given and whether the delete found its row or raised the 404. *)
Theorem writes_keep_ids_unique
  (now : string) (activity : ActivityCreate.t) (mistake : MistakeCreate.t)
  (x : Z) (db : Store) :
  store_ok db = true ->
  store_ok (snd (create_activity now activity db)) = true /\
  store_ok (snd (create_mistake now mistake db)) = true /\
  store_ok (snd (delete_activity x db)) = true /\
  store_ok (snd (delete_mistake x db)) = true.
Proof.
  unfold store_ok. intros H. apply andb_prop in H as [Ha Hm].
  repeat split.
  - pose proof (create_activity_eq now activity db) as E. cbv zeta in E.
    rewrite E. cbn [snd activities activities_seq mistakes mistakes_seq].
    rewrite Hm, andb_true_r. now apply (ids_ok_append _ (activities_seq db)).
  - pose proof (create_mistake_eq now mistake db) as E. cbv zeta in E.
    rewrite E. cbn [snd activities activities_seq mistakes mistakes_seq].
    rewrite Ha. now apply (ids_ok_append _ (mistakes_seq db)).
  - unfold delete_activity. destruct (Nat.eqb _ 0);
      cbn [snd activities activities_seq mistakes mistakes_seq].
    + now rewrite Ha, Hm.
    + rewrite Hm, andb_true_r. now apply ids_ok_filter.
  - unfold delete_mistake. destruct (Nat.eqb _ 0);
      cbn [snd activities activities_seq mistakes mistakes_seq].
    + now rewrite Ha, Hm.
    + rewrite Ha. now apply ids_ok_filter.
Qed.

Lemma writes_keep_ids_unique_witness :
  store_ok (snd (create_activity "2026-03-01 10:00:00" bad_activity
                                 scenario_store)) = true /\
  store_ok (snd (delete_activity 1 scenario_store)) = true.
Proof.
  destruct (writes_keep_ids_unique
              "2026-03-01 10:00:00" bad_activity
              (MistakeCreate.Build "2026-01-07" None None None None None None
                                   None None None None None None)
              1 scenario_store eq_refl)
    as (H1 & _ & H3 & _).
  exact (conj H1 H3).
Defined.

Lemma absent_false_split {R : Type} (id : R -> Z) (x : Z) (rows : list R) :
  absent id x rows = false ->
  exists before r after, rows = before ++ r :: after /\ id r = x.
Proof.
  unfold absent. intros H.
  assert (Hex : exists r, In r rows /\ id r = x).
  { induction rows as [|r t IH]; simpl in H; [discriminate|].
    destruct (id r =? x) eqn:E.
    - exists r. split; [now left | now apply Z.eqb_eq].
    - simpl in H. destruct (IH H) as (r' & Hr' & E').
      exists r'. split; [now right | exact E']. }
  destruct Hex as (r & Hr & E). apply in_split in Hr as (b & a & ->).
  now exists b, r, a.
Qed.

Lemma delete_unique {R : Type} (id : R -> Z) (before after : list R) (r : R) :
  NoDup (map id (before ++ r :: after)) ->
  filter (fun r' => negb (id r' =? id r)) (before ++ r :: after) =
  before ++ after.
Proof.
  intros Hnd. rewrite map_app in Hnd. simpl in Hnd.
  apply NoDup_remove in Hnd as [_ Hnin].
  rewrite filter_app. cbn [filter]. rewrite Z.eqb_refl. cbn [negb].
  rewrite !filter_all; [reflexivity | |]; apply forallb_forall;
    intros r' Hr'; apply negb_true_iff, Z.eqb_neq; intros E; apply Hnin;
    rewrite <- E; apply in_or_app; [right | left]; now apply in_map.
Qed.

(** X9: on a store that keeps the id invariant, deleting an id that is
    present in the table of the endpoint (whether or not the other table
    has it) answers with the success message and removes that one row: the
    table is the old one without it, the other rows in their order, and the
    sequence value and the other table are untouched. *)
Theorem delete_present_removes_one_row (aid mid : Z) (db : Store) :
  store_ok db = true ->
  (absent Activity.id aid (activities db) = false ->
   exists before r after,
     activities db = before ++ r :: after /\ Activity.id r = aid /\
     delete_activity aid db =
     (Ok "Activity deleted"%string,
      mkStore (before ++ after) (activities_seq db)
              (mistakes db) (mistakes_seq db))) /\
  (absent Mistake.id mid (mistakes db) = false ->
   exists before r after,
     mistakes db = before ++ r :: after /\ Mistake.id r = mid /\
     delete_mistake mid db =
     (Ok "Mistake deleted"%string,
      mkStore (activities db) (activities_seq db)
              (before ++ after) (mistakes_seq db))).
Proof.
  unfold store_ok. intros H. apply andb_prop in H as [Oa Om].
  apply ids_ok_spec in Oa as [Na _]. apply ids_ok_spec in Om as [Nm _].
  split.
  - intros Ha.
    destruct (absent_false_split _ _ _ Ha) as (b & r & a & E & Ex).
    exists b, r, a. repeat split; try assumption.
    unfold delete_activity. rewrite E in *. subst aid.
    rewrite (delete_unique Activity.id b a r Na).
    rewrite !length_app. cbn [List.length].
    replace (List.length b + S (List.length a)
             - (List.length b + List.length a))%nat with 1%nat by lia.
    reflexivity.
  - intros Hm.
    destruct (absent_false_split _ _ _ Hm) as (b & r & a & E & Ex).
    exists b, r, a. repeat split; try assumption.
    unfold delete_mistake. rewrite E in *. subst mid.
    rewrite (delete_unique Mistake.id b a r Nm).
    rewrite !length_app. cbn [List.length].
    replace (List.length b + S (List.length a)
             - (List.length b + List.length a))%nat with 1%nat by lia.
    reflexivity.
Qed.

Lemma delete_present_witness :
  absent Mistake.id 2 (mistakes scenario_store) = true /\
  (exists before r after,
     activities scenario_store = before ++ r :: after /\
     Activity.id r = 2 /\
     delete_activity 2 scenario_store =
     (Ok "Activity deleted"%string,
      mkStore (before ++ after) (activities_seq scenario_store)
              (mistakes scenario_store) (mistakes_seq scenario_store))) /\
  (exists before r after,
     mistakes scenario_store = before ++ r :: after /\
     Mistake.id r = 1 /\
     delete_mistake 1 scenario_store =
     (Ok "Mistake deleted"%string,
      mkStore (activities scenario_store) (activities_seq scenario_store)
              (before ++ after) (mistakes_seq scenario_store))).
Proof.
  destruct (delete_present_removes_one_row 2 1 scenario_store eq_refl)
    as [Ha Hm].
  split; [reflexivity|].
  split; [exact (Ha eq_refl) | exact (Hm eq_refl)].
Defined.

Lemma delete_keeps_id_bounds (x : Z) (db : Store) :
  store_ok db = true ->
  (forall r, In r (activities (snd (delete_activity x db))) ->
             Activity.id r <= activities_seq db) /\
  (forall r, In r (mistakes (snd (delete_mistake x db))) ->
             Mistake.id r <= mistakes_seq db) /\
  activities_seq (snd (delete_activity x db)) = activities_seq db /\
  mistakes_seq (snd (delete_mistake x db)) = mistakes_seq db /\
  (forall r, In r (activities db) -> Activity.id r <= activities_seq db) /\
  (forall r, In r (mistakes db) -> Mistake.id r <= mistakes_seq db).
Proof.
  unfold store_ok. intros H. apply andb_prop in H as [Oa Om].
  apply ids_ok_spec in Oa as [_ La]. apply ids_ok_spec in Om as [_ Lm].
  unfold delete_activity, delete_mistake.
  destruct (Nat.eqb _ 0); destruct (Nat.eqb _ 0);
    cbn [snd activities activities_seq mistakes mistakes_seq];
    repeat split; try assumption;
    intros r Hr; try apply filter_In in Hr as [Hr _]; auto.
Qed.

(** X10: ids are not handed out again.  On a store that keeps the id
    invariant, the row created after any delete gets the id one above the
    sequence value, which is above every id the table held before the
    delete, the deleted one included. *)
Theorem deleted_id_is_not_reused
  (now : string) (activity : ActivityCreate.t) (mistake : MistakeCreate.t)
  (x : Z) (db : Store) :
  store_ok db = true ->
  (exists row db2,
      create_activity now activity (snd (delete_activity x db)) =
      (Ok row, db2) /\
      Activity.id row = activities_seq db + 1 /\
      Forall (fun r => Activity.id r < Activity.id row) (activities db)) /\
  (exists row db2,
      create_mistake now mistake (snd (delete_mistake x db)) =
      (Ok row, db2) /\
      Mistake.id row = mistakes_seq db + 1 /\
      Forall (fun r => Mistake.id r < Mistake.id row) (mistakes db)).
Proof.
  intros H.
  destruct (delete_keeps_id_bounds x db H) as (Ha & Hm & Sa & Sm & La & Lm).
  split.
  - pose proof (create_activity_eq now activity (snd (delete_activity x db)))
      as E. cbv zeta in E.
    eexists _, _. split; [exact E|]. cbn [Activity.id].
    rewrite Sa, (max_id_is_seq _ _ _ Ha). split; [reflexivity|].
    apply Forall_forall. intros r Hr. specialize (La r Hr). lia.
  - pose proof (create_mistake_eq now mistake (snd (delete_mistake x db)))
      as E. cbv zeta in E.
    eexists _, _. split; [exact E|]. cbn [Mistake.id].
    rewrite Sm, (max_id_is_seq _ _ _ Hm). split; [reflexivity|].
    apply Forall_forall. intros r Hr. specialize (Lm r Hr). lia.
Qed.

Lemma deleted_id_is_not_reused_witness :
  exists row db2,
    create_activity "2026-03-01 10:00:00" bad_activity
                    (snd (delete_activity 2 scenario_store)) = (Ok row, db2) /\
    Activity.id row = 3.
Proof.
  destruct (deleted_id_is_not_reused
              "2026-03-01 10:00:00" bad_activity
              (MistakeCreate.Build "2026-01-07" None None None None None None
                                   None None None None None None)
              2 scenario_store eq_refl)
    as [(row & db2 & E & Hid & _) _].
  exists row, db2. split; [exact E | exact Hid].
Defined.

(** ** GROUP BY totals *)

Lemma sum_Z_cons (x : Z) (l : list Z) : sum_Z (x :: l) = x + sum_Z l.
Proof. reflexivity. Qed.

Section SumByKey.
Context {R K : Type} (key : R -> K) (keqb : K -> K -> bool) (w : R -> Z).
Hypothesis keqb_spec : forall a b, keqb a b = true <-> a = b.

Lemma sum_no_key (c : K) (x : Z) (ks : list K) :
  ~ In c ks -> sum_Z (map (fun k => if keqb c k then x else 0) ks) = 0.
Proof.
  induction ks as [|k t IH]; intros Hnin; [reflexivity|].
  cbn [map]. rewrite sum_Z_cons, IH by (intros H; apply Hnin; now right).
  destruct (keqb c k) eqn:E; [|reflexivity].
  apply keqb_spec in E. subst. elim Hnin. now left.
Qed.

Lemma sum_one_key (c : K) (x : Z) (ks : list K) :
  NoDup ks -> In c ks ->
  sum_Z (map (fun k => if keqb c k then x else 0) ks) = x.
Proof.
  induction ks as [|k t IH]; intros Hnd Hin; [contradiction|].
  apply NoDup_cons_iff in Hnd as [Hk Ht]. cbn [map]. rewrite sum_Z_cons.
  destruct (keqb c k) eqn:E.
  - apply keqb_spec in E. subst k. rewrite sum_no_key by exact Hk. lia.
  - destruct Hin as [->|Hin].
    + now rewrite (proj2 (keqb_spec c c) eq_refl) in E.
    + rewrite IH by assumption. lia.
Qed.

Lemma sum_by_key_step (a : R) (t : list R) (l : list K) :
  sum_Z (map (fun k =>
                sum_Z (map w (filter (fun r => keqb (key r) k) (a :: t)))) l)
  = sum_Z (map (fun k => if keqb (key a) k then w a else 0) l) +
    sum_Z (map (fun k =>
                  sum_Z (map w (filter (fun r => keqb (key r) k) t))) l).
Proof.
  induction l as [|k l' IHl]; [reflexivity|].
  cbn [map]. rewrite !sum_Z_cons, IHl. cbn [filter].
  destruct (keqb (key a) k); [cbn [map]; rewrite sum_Z_cons|]; lia.
Qed.

(** Summing the group totals over distinct keys that cover the rows gives
    the total over the rows. *)
Lemma sum_by_key (ks : list K) (rows : list R) :
  NoDup ks -> (forall r, In r rows -> In (key r) ks) ->
  sum_Z (map (fun k =>
                sum_Z (map w (filter (fun r => keqb (key r) k) rows))) ks) =
  sum_Z (map w rows).
Proof.
  intros Hnd. induction rows as [|a t IH]; intros Hcov.
  - cbn [filter map]. clear Hnd Hcov.
    induction ks as [|k ks' IHk]; [reflexivity|].
    cbn [map]. rewrite sum_Z_cons, IHk. reflexivity.
  - rewrite sum_by_key_step, IH by (intros r Hr; apply Hcov; now right).
    rewrite sum_one_key; [|exact Hnd | apply Hcov; now left].
    cbn [map]. now rewrite sum_Z_cons.
Qed.
End SumByKey.

(** X11: [category_distribution] of GET /stats/summary has one entry per
    category that occurs in the table and no other, each category once;
    the entry of a category is the sum of the minutes of its activities;
    and the totals of all entries add up to the minutes of the whole
    table, so no activity is left out or counted twice. *)
Theorem category_distribution_totals (db : Store) :
  let dist := Summary.category_distribution (get_summary db) in
  NoDup (map fst dist) /\
  (forall c, In c (map fst dist) <->
             exists a, In a (activities db) /\ Activity.category a = c) /\
  (forall c n, In (c, n) dist ->
               n = sum_Z (map Activity.minutes
                            (filter (fun a => String.eqb (Activity.category a) c)
                                    (activities db)))) /\
  sum_Z (map snd dist) = sum_Z (map Activity.minutes (activities db)).
Proof.
  cbn [get_summary Summary.category_distribution]. cbv zeta.
  unfold category_totals. set (rows := activities db).
  set (ks := order_by String.leb (nodup string_dec (map Activity.category rows))).
  assert (Hks : forall c, In c ks <-> In c (map Activity.category rows)).
  { intros c. subst ks. now rewrite In_order_by, nodup_In. }
  assert (Hnd : NoDup ks) by (apply NoDup_order_by, NoDup_nodup).
  rewrite !map_map. cbn [fst snd]. rewrite map_id. repeat split.
  - exact Hnd.
  - intros H. apply Hks, in_map_iff in H as (a & E & Ha). now exists a.
  - intros (a & Ha & E). apply Hks, in_map_iff. now exists a.
  - intros c n H. apply in_map_iff in H as (c' & E & _).
    injection E as -> <-. reflexivity.
  - apply (sum_by_key Activity.category String.eqb Activity.minutes
                      String.eqb_eq ks rows Hnd).
    intros r Hr. apply Hks. now apply in_map.
Qed.

Lemma length_as_sum {A : Type} (l : list A) :
  Z.of_nat (List.length l) = sum_Z (map (fun _ => 1) l).
Proof.
  induction l as [|x t IH]; [reflexivity|].
  cbn [List.length map]. rewrite sum_Z_cons. lia.
Qed.

Lemma count_by_sum (col : Mistake.t -> option string)
  (rows : list Mistake.t) :
  sum_Z (map snd (count_by col rows)) =
  Z.of_nat (List.length (present_values col rows)).
Proof.
  rewrite count_by_present, map_map. cbn [snd].
  set (present := present_values col rows).
  set (ks := order_by String.leb (nodup string_dec present)).
  rewrite (length_as_sum present).
  rewrite <- (sum_by_key (fun v : string => v) String.eqb (fun _ => 1)
                         String.eqb_eq ks present).
  - f_equal. apply map_ext. intros v. rewrite length_as_sum.
    do 2 f_equal. apply filter_ext. intros x. apply String.eqb_sym.
  - apply NoDup_order_by, NoDup_nodup.
  - intros v Hv. subst ks. now apply In_order_by, nodup_In.
Qed.

Lemma present_or_null (col : Mistake.t -> option string)
  (rows : list Mistake.t) :
  (List.length (present_values col rows) +
   List.length (filter (fun r => is_null (col r)) rows))%nat =
  List.length rows.
Proof.
  unfold present_values. induction rows as [|r t IH]; [reflexivity|].
  cbn [flat_map filter]. rewrite length_app.
  destruct (col r); cbn [is_null List.length app]; lia.
Qed.

(** X12: the two distributions of GET /mistakes/stats and the
    [total_count] of GET /mistakes add up.  In each distribution every
    value occurs once, every count is positive, and the counts plus the
    number of rows where the column is NULL make [total_count]. *)
Theorem distributions_partition_the_rows (limit offset : Z) (db : Store) :
  let stats := get_mistakes_stats db in
  let total := MistakesPage.total_count (get_mistakes limit offset db) in
  NoDup (map fst (MistakesStats.mistake_distribution stats)) /\
  NoDup (map fst (MistakesStats.result_distribution stats)) /\
  Forall (fun e => 0 < snd e) (MistakesStats.mistake_distribution stats) /\
  Forall (fun e => 0 < snd e) (MistakesStats.result_distribution stats) /\
  sum_Z (map snd (MistakesStats.mistake_distribution stats)) +
  Z.of_nat (List.length
              (filter (fun r => is_null (Mistake.mistake_category r))
                      (mistakes db))) = total /\
  sum_Z (map snd (MistakesStats.result_distribution stats)) +
  Z.of_nat (List.length
              (filter (fun r => is_null (Mistake.result r))
                      (mistakes db))) = total.
Proof.
  cbv zeta. unfold get_mistakes_stats, get_mistakes.
  cbn [MistakesStats.mistake_distribution MistakesStats.result_distribution
       MistakesPage.total_count].
  assert (Hnd : forall col,
             NoDup (map fst (count_by col (mistakes db)))).
  { intros col. rewrite count_by_present, map_map. cbn [fst]. rewrite map_id.
    apply NoDup_order_by, NoDup_nodup. }
  assert (Hpos : forall col,
             Forall (fun e => 0 < snd e) (count_by col (mistakes db))).
  { intros col. apply Forall_forall. intros [v n] Hin.
    apply count_by_keys in Hin as [(r & Hr & Hv) ->]. cbn [snd].
    assert (Hf : In r (filter (fun r0 => sql_eq (col r0) (Some v))
                              (mistakes db))).
    { apply filter_In. split; [exact Hr|]. now apply sql_eq_true. }
    destruct (filter _ (mistakes db)); [contradiction|].
    cbn [List.length]. lia. }
  assert (Hsum : forall col,
             sum_Z (map snd (count_by col (mistakes db))) +
             Z.of_nat (List.length
                         (filter (fun r => is_null (col r)) (mistakes db))) =
             Z.of_nat (List.length (mistakes db))).
  { intros col. rewrite count_by_sum, <- (present_or_null col (mistakes db)).
    lia. }
  repeat split; auto.
Qed.

(** ** Weeks, as the code buckets them *)

Lemma valid_date_of_days (z : Z) :
  -719162 <= z <= 2932896 -> valid_date (civil_from_days z).
Proof.
  intros H. pose proof (civil_from_days_year z) as Y. cbv zeta in Y.
  destruct (civil_from_days_valid z) as [Hm Hd].
  unfold valid_date, valid_dateb.
  rewrite !andb_true_iff, !Z.leb_le. lia.
Qed.

(** X13: what the bucket expression of GET /stats/summary gives on every
    valid date: a text that is itself a valid date, that is a Monday, and
    that is the date or one of the six days before it. *)
Theorem week_start_is_the_monday_on_or_before (D : string) (c : civil) :
  parse_yyyy_mm_dd D = Some c -> valid_date c ->
  exists w z,
    week_start (Some D) = Some w /\ is_valid_date_text w = true /\
    date_days w = Some z /\ weekday z = Monday /\
    z <= days_from_civil c <= z + 6.
Proof.
  intros P V. set (z := week_start_days (days_from_civil c)).
  assert (R : -719162 <= z <= 2932896)
    by (apply week_start_days_range, valid_date_days, V).
  exists (format_date (civil_from_days z)), z. repeat split.
  - now apply week_start_valid.
  - unfold is_valid_date_text.
    rewrite parse_civil_from_days by now apply valid_julian_day_range.
    now apply valid_date_of_days.
  - now apply date_days_format.
  - apply week_start_days_monday.
  - apply week_start_days_bounds.
  - apply week_start_days_bounds.
Qed.

Lemma week_start_is_the_monday_witness :
  exists w z,
    week_start (Some "2026-01-10"%string) = Some w /\
    is_valid_date_text w = true /\
    date_days w = Some z /\ weekday z = Monday /\
    z <= days_from_civil (Civil 2026 1 10) <= z + 6.
Proof.
  exact (week_start_is_the_monday_on_or_before
           "2026-01-10" (Civil 2026 1 10) eq_refl eq_refl).
Defined.

(** X14: two valid dates get the same [week_start] exactly when they lie
    in the same Monday-to-Sunday week, and a later date never gets an
    earlier [week_start]: the bucket texts sort as the dates do. *)
Theorem same_week_start_iff_same_week (D1 D2 : string) (c1 c2 : civil) :
  parse_yyyy_mm_dd D1 = Some c1 -> valid_date c1 ->
  parse_yyyy_mm_dd D2 = Some c2 -> valid_date c2 ->
  (week_start (Some D1) = week_start (Some D2) <->
   week_number (days_from_civil c1) = week_number (days_from_civil c2)) /\
  (days_from_civil c1 <= days_from_civil c2 ->
   text_null_geb (week_start (Some D2)) (week_start (Some D1)) = true).
Proof.
  intros P1 V1 P2 V2.
  rewrite (week_start_valid D1 c1 P1 V1), (week_start_valid D2 c2 P2 V2).
  set (z1 := days_from_civil c1). set (z2 := days_from_civil c2).
  assert (R1 : -719162 <= week_start_days z1 <= 2932896)
    by (apply week_start_days_range, valid_date_days, V1).
  assert (R2 : -719162 <= week_start_days z2 <= 2932896)
    by (apply week_start_days_range, valid_date_days, V2).
  assert (Hw : week_start_days z1 = week_start_days z2 <->
               week_number z1 = week_number z2).
  { unfold week_start_days, minus_6_days, weekday_0, weekday, week_number.
    split; intros H; div_lia. }
  split.
  - rewrite <- Hw. split.
    + intros E. injection E as E. apply (f_equal date_days) in E.
      rewrite !date_days_format in E by assumption. congruence.
    + intros ->. reflexivity.
  - intros Hle. unfold text_null_geb. cbn [text_null_compare].
    rewrite format_civil_from_days_compare by assumption.
    assert (Hm : week_start_days z1 <= week_start_days z2).
    { unfold week_start_days, minus_6_days, weekday_0, weekday. div_lia. }
    destruct (Z.compare_spec (week_start_days z2) (week_start_days z1));
      [reflexivity | lia | reflexivity].
Qed.

Lemma same_week_start_witness :
  week_start (Some "2026-01-05"%string) =
  week_start (Some "2026-01-11"%string).
Proof.
  apply (proj1 (same_week_start_iff_same_week
                  "2026-01-05" "2026-01-11" (Civil 2026 1 5) (Civil 2026 1 11)
                  eq_refl eq_refl eq_refl eq_refl)).
  reflexivity.
Defined.

(** ** The summary on any store *)











(** ** Export and listing against the totals *)

Lemma insert_sorted_map {A B : Type} (f : A -> B)
  (lebA : A -> A -> bool) (lebB : B -> B -> bool) (x : A) (l : list A) :
  (forall a b, lebB (f a) (f b) = lebA a b) ->
  map f (insert_sorted lebA x l) = insert_sorted lebB (f x) (map f l).
Proof.
  intros H. induction l as [|y t IH]; simpl; [reflexivity|].
  rewrite H. destruct (lebA x y); simpl; [reflexivity|]. now rewrite IH.
Qed.

Lemma order_by_map {A B : Type} (f : A -> B)
  (lebA : A -> A -> bool) (lebB : B -> B -> bool) (l : list A) :
  (forall a b, lebB (f a) (f b) = lebA a b) ->
  map f (order_by lebA l) = order_by lebB (map f l).
Proof.
  intros H. induction l as [|x t IH]; simpl; [reflexivity|].
  now rewrite (insert_sorted_map f lebA lebB), IH.
Qed.

(** X17: GET /export shows the five selected columns and nothing else of a
    row.  Two stores whose activities agree, row by row, on date, week,
    category, minutes and details export the same response, whatever the
    ids and creation times of the rows and whatever the mistakes. *)
Theorem export_ignores_id_and_created_at (today : string) (db1 db2 : Store) :
  map export_view (activities db1) = map export_view (activities db2) ->
  export_activities today db1 = export_activities today db2.
Proof.
  intros H. unfold export_activities. f_equal. f_equal. f_equal.
  set (cmp := fun a b : Activity.t =>
                String.leb (Activity.date b) (Activity.date a)).
  set (cmp' := fun v w : string * Z * string * Z * option string =>
                 String.leb (fst (fst (fst (fst w))))
                            (fst (fst (fst (fst v))))).
  set (line := fun v : string * Z * string * Z * option string =>
                 writerow [VText (fst (fst (fst (fst v))));
                           VInt (snd (fst (fst (fst v))));
                           VText (snd (fst (fst v)));
                           VInt (snd (fst v));
                           value_of_text (snd v)]).
  assert (E : forall rows,
             map (fun a => writerow (activity_cells a)) (order_by cmp rows) =
             map line (order_by cmp' (map export_view rows))).
  { intros rows.
    rewrite <- (order_by_map export_view cmp cmp') by reflexivity.
    rewrite map_map. reflexivity. }
  now rewrite !E, H.
Qed.

Lemma export_ignores_id_witness :
  export_activities "20260301" scenario_store =
  export_activities "20260301"
    (mkStore [Activity.Build 7 "2026-01-05" 2 "Tactics" 30 None "later";
              Activity.Build 9 "2026-01-10" 2 "Tactics" 45 None "later"]
             9 [] 0).
Proof.
  exact (export_ignores_id_and_created_at
           "20260301" scenario_store
           (mkStore [Activity.Build 7 "2026-01-05" 2 "Tactics" 30 None "later";
                     Activity.Build 9 "2026-01-10" 2 "Tactics" 45 None "later"]
                    9 [] 0)
           eq_refl).
Defined.

Lemma sum_Z_perm (l1 l2 : list Z) :
  Permutation l1 l2 -> sum_Z l1 = sum_Z l2.
Proof.
  induction 1 as [|x l l' _ IH|x y l|l l' l'' _ IH1 _ IH2].
  - reflexivity.
  - now rewrite !sum_Z_cons, IH.
  - rewrite !sum_Z_cons. lia.
  - now rewrite IH1.
Qed.

(** X18: the totals of the summary agree with the listing.  For a category
    name that is not empty, its entry in [category_distribution] is the sum
    of the minutes of the rows GET /activities lists under that category
    filter (no limit, no date bounds), and the [total_count] of that
    listing is the number of rows listed. *)
Theorem category_total_is_sum_of_listing
  (c : string) (n : Z) (db : Store) :
  truthy (Some c) = true ->
  In (c, n) (Summary.category_distribution (get_summary db)) ->
  let page := get_activities (-1) 0 (Some c) None None db in
  n = sum_Z (map Activity.minutes (ActivitiesPage.activities page)) /\
  ActivitiesPage.total_count page =
  Z.of_nat (List.length (ActivitiesPage.activities page)).
Proof.
  intros Hc Hin. cbv zeta.
  cbn [get_summary Summary.category_distribution] in Hin.
  unfold category_totals in Hin. apply in_map_iff in Hin as (c' & E & _).
  injection E as -> <-.
  unfold get_activities.
  cbn [ActivitiesPage.activities ActivitiesPage.total_count].
  rewrite sql_where_matches.
  assert (Ef : filter (matches (Some c) None None) (activities db) =
               filter (fun a => String.eqb (Activity.category a) c)
                      (activities db)).
  { apply filter_ext. intros a. unfold matches.
    destruct c; [discriminate|]. now rewrite !andb_true_r. }
  rewrite Ef. unfold limit_offset. cbn [Z.ltb Z.compare Z.to_nat skipn].
  split.
  - apply sum_Z_perm, Permutation_map. symmetry. apply order_by_perm.
  - now rewrite length_order_by.
Qed.

Lemma category_total_witness :
  75 = sum_Z (map Activity.minutes
                (ActivitiesPage.activities
                   (get_activities (-1) 0 (Some "Tactics"%string) None None
                                   scenario_store))).
Proof.
  apply (category_total_is_sum_of_listing "Tactics" 75 scenario_store
                                          eq_refl).
  simpl. now left.
Defined.
